(** * eigo: the spaced-repetition scheduler and the study session hook

    A shallow embedding of
    - [utils/spaced-repetition]: [calculateNextReviewDate],
      [calculateSuccessRate], [calculateTodayCards];
    - [services/storage]: [LogStorage], [DeckStorage], [CardStorage],
      [SettingsStorage];
    - [hooks/useDeck]: [loadDeckAndCards], [handleResponse], [resetSession],
      [isSessionComplete];
    - [types]: [ResponseType], [StudyLog], [UserSettings], ...

    Conventions of the embedding.
    - A JavaScript [number] that carries a timestamp, a duration or a
      multiplier is a rational [Q]: the arithmetic is the exact one, without
      the rounding of binary64, and without NaN and the infinities.  Equality
      of such numbers is [==].  Where the rounding of the sum
      [now + interval] matters (the floor and the positivity of the
      interval), the statements are made on the interval that enters the
      sum, so that they do not rest on the sum being exact; module
      [Binary64] has [calculateNextReviewDate] on binary64 numbers, to
      evaluate the code where the rounding shows.
    - A [number] that only counts (array lengths, indices, the progress and
      the statistics counters) is a [nat]; the two daily caps, which reach
      [Array.prototype.slice], are integers [Z].
    - [Date.now()] and the local midnights derived from it are read from the
      environment and passed explicitly.
    - A promise is modelled by its outcome: resolved with a value, or
      rejected. *)

From Stdlib Require Import ZArith QArith Qminmax List String Bool Lia Lqa.
From Stdlib Require Import Permutation PrimFloat.
Import ListNotations.

Local Open Scope string_scope.
Local Open Scope list_scope.
Local Open Scope Q_scope.

(** ** JavaScript primitives used by the sources *)

Definition Math_max (a b : Q) : Q := Qmax a b.
Definition Math_min (a b : Q) : Q := Qmin a b.

(** [a < b] and [a > b] on numbers. *)
Definition Qltb (a b : Q) : bool := negb (Qle_bool b a).
Definition Qgtb (a b : Q) : bool := Qltb b a.

(** [arr.slice(0, end)] for an integer [end]: a negative [end] counts from
    the end of the array, and the bounds are clamped to [0 .. length]. *)
Definition Array_slice0 {A : Type} (arr : list A) (e : Z) : list A :=
  let len := Z.of_nat (List.length arr) in
  let final := if (e <? 0)%Z then Z.max (len + e) 0 else Z.min e len in
  firstn (Z.to_nat final) arr.

(** A [Set<string>]: the elements in insertion order, without repetition. *)
Definition JsSet := list string.

Definition Set_has (s : JsSet) (x : string) : bool :=
  existsb (String.eqb x) s.

Definition Set_add (s : JsSet) (x : string) : JsSet :=
  if Set_has s x then s else s ++ [x].

(** [new Set(xs)] *)
Definition Set_new (xs : list string) : JsSet := fold_left Set_add xs [].

(** [Array.from(s)] *)
Definition Array_from (s : JsSet) : list string := s.

(** ** types *)

Inductive ResponseType : Type :=
  | WRONG
  | AGAIN
  | HARD
  | CORRECT
  | EASY.

Definition ResponseType_eqb (a b : ResponseType) : bool :=
  match a, b with
  | WRONG, WRONG | AGAIN, AGAIN | HARD, HARD
  | CORRECT, CORRECT | EASY, EASY => true
  | _, _ => false
  end.

Record StudyLog : Type := mkStudyLog {
  id : string;
  cardId : string;
  deckId : string;
  studiedAt : Q;
  responseTime : Q;
  responseType : ResponseType;
  nextReviewDate : Q
}.

(** An object [{ [key in ResponseType]: number }]. *)
Definition PerResponse := ResponseType -> Q.

(** ** utils/spaced-repetition *)

Definition ms_per_day : Q := 1000 * 60 * 60 * 24.

Definition DEFAULT_INTERVALS : PerResponse := fun r =>
  match r with
  | WRONG => 1000 * 60 * 60
  | AGAIN => 1000 * 60 * 60 * 6
  | HARD => 1000 * 60 * 60 * 24
  | CORRECT => 1000 * 60 * 60 * 24 * 3
  | EASY => 1000 * 60 * 60 * 24 * 7
  end.

Definition DEFAULT_MULTIPLIERS : PerResponse := fun r =>
  match r with
  | WRONG => 11 # 10
  | AGAIN => 12 # 10
  | HARD => 15 # 10
  | CORRECT => 2
  | EASY => 25 # 10
  end.

Definition EASE_FACTORS : PerResponse := fun r =>
  match r with
  | WRONG => 0
  | AGAIN => 1
  | HARD => 2
  | CORRECT => 3
  | EASY => 5
  end.

Definition MAX_INTERVAL : Q := 1000 * 60 * 60 * 24 * 180.

(** The [for (const log of cardLogs)] loop with its [break]: the length of
    the leading run of CORRECT or EASY logs. *)
Fixpoint consecutiveCorrect (cardLogs : list StudyLog) : nat :=
  match cardLogs with
  | [] => 0%nat
  | log :: rest =>
      if ResponseType_eqb (responseType log) CORRECT
         || ResponseType_eqb (responseType log) EASY
      then S (consecutiveCorrect rest)
      else 0%nat
  end.

(** The multiplier after the early/late correction and the streak bonus. *)
Definition adjustMultiplier (now : Q) (rt : ResponseType)
    (lastLog : StudyLog) (cardLogs : list StudyLog)
    (multipliers : PerResponse) : Q :=
  let adjustedMultiplier := multipliers rt in
  let scheduledReviewDate := nextReviewDate lastLog in
  let adjustedMultiplier :=
    if Qltb now scheduledReviewDate then adjustedMultiplier * (9 # 10)
    else if Qgtb now (scheduledReviewDate + 1000 * 60 * 60 * 24 * 7)
    then adjustedMultiplier * (7 # 10)
    else adjustedMultiplier in
  let n := consecutiveCorrect cardLogs in
  if (0 <? n)%nat
  then
    let consecutiveFactor := 1 + inject_Z (Z.of_nat n) * (1 # 10) in
    adjustedMultiplier * consecutiveFactor
  else adjustedMultiplier.

(** The interval before the final clamp. *)
Definition reviewInterval (now : Q) (cardId0 : string) (rt : ResponseType)
    (previousLogs : list StudyLog)
    (intervals multipliers : PerResponse) : Q :=
  let interval := intervals rt in
  let cardLogs :=
    filter (fun log => String.eqb (cardId log) cardId0) previousLogs in
  match cardLogs with
  | [] => interval
  | lastLog :: _ =>
      let timeSinceLastReview := now - studiedAt lastLog in
      let daysSinceLastReview := timeSinceLastReview / ms_per_day in
      let adjustedMultiplier :=
        adjustMultiplier now rt lastLog cardLogs multipliers in
      let previousInterval := nextReviewDate lastLog - studiedAt lastLog in
      if ResponseType_eqb rt WRONG
      then intervals WRONG
      else Math_max (previousInterval * adjustedMultiplier) interval
  end.

(** [calculateNextReviewDate]; [now] is the value of [Date.now()]. *)
Definition calculateNextReviewDate (now : Q) (cardId0 : string)
    (rt : ResponseType) (previousLogs : list StudyLog)
    (intervals multipliers : PerResponse) : Q :=
  let interval :=
    reviewInterval now cardId0 rt previousLogs intervals multipliers in
  let interval := Math_min interval MAX_INTERVAL in
  now + interval.

(** [calculateSuccessRate] *)
Definition calculateSuccessRate (rt : ResponseType) (responseTime0 : Q) : Q :=
  let baseFactor := EASE_FACTORS rt in
  let timeFactor :=
    if Qgtb responseTime0 10000 then 9 # 10
    else if Qgtb responseTime0 20000 then 7 # 10
    else 1 in
  let successRate := (baseFactor / 5) * 100 * timeFactor in
  Math_max 0 (Math_min 100 successRate).

(** The three instants [calculateTodayCards] derives from the clock:
    [Date.now()], the local midnight before it ([setHours(0,0,0,0)]) and the
    local midnight after it ([setDate(getDate() + 1)]). *)
Record Today : Type := mkToday {
  now : Q;
  todayStart : Q;
  tomorrowStart : Q
}.

(** The clock of a device whose local time is UTC. *)
Definition utcToday (t : Z) : Today :=
  let start := (t - t mod 86400000)%Z in
  mkToday (inject_Z t) (inject_Z start) (inject_Z (start + 86400000)).

Definition studiedToday (d : Today) (l : StudyLog) : bool :=
  Qle_bool (todayStart d) (studiedAt l) && Qltb (studiedAt l) (tomorrowStart d).

Record TodayCards : Type := mkTodayCards {
  newCardIds : list string;
  reviewCardIds : list string
}.

(** The candidates before the caps are applied. *)
Definition newCandidates (logs : list StudyLog) (allCardIds : list string)
    : list string :=
  let studiedCardIds := Set_new (map cardId logs) in
  filter (fun id0 => negb (Set_has studiedCardIds id0)) allCardIds.

Definition reviewCandidates (d : Today) (logs : list StudyLog) : list string :=
  Array_from (Set_new
    (map cardId
      (filter
        (fun log =>
           let todayLogs :=
             filter (fun l => String.eqb (cardId l) (cardId log)
                              && studiedToday d l) logs in
           (List.length todayLogs =? 0)%nat)
        (filter (fun log => Qle_bool (nextReviewDate log) (now d)) logs)))).

(** [calculateTodayCards] *)
Definition calculateTodayCards (d : Today) (logs : list StudyLog)
    (newCardsPerDay reviewCardsPerDay : Z) (allCardIds : list string)
    : TodayCards :=
  {| newCardIds := Array_slice0 (newCandidates logs allCardIds) newCardsPerDay;
     reviewCardIds :=
       Array_slice0 (reviewCandidates d logs) reviewCardsPerDay |}.

(** ** types (continued): cards, decks, settings *)

Module WordCard.
Record t : Type := mk { id : string; word : string }.
End WordCard.

Module Deck.
Record t : Type := mk { id : string; name : string; cardIds : list string }.
End Deck.

(** Base intervals in minutes, and the multipliers. *)
Record ReviewIntervals : Type := mkReviewIntervals {
  wrong : Q;
  again : Q;
  hard : Q;
  correct : Q;
  easy : Q;
  wrongMultiplier : Q;
  againMultiplier : Q;
  hardMultiplier : Q;
  correctMultiplier : Q;
  easyMultiplier : Q
}.

Record UserSettings : Type := mkUserSettings {
  newCardsPerDay : Z;
  reviewCardsPerDay : Z;
  reviewIntervals : ReviewIntervals
}.

(** The part of [DEFAULT_USER_SETTINGS] the scheduler reads. *)
Definition DEFAULT_USER_SETTINGS : UserSettings :=
  {| newCardsPerDay := 20;
     reviewCardsPerDay := 100;
     reviewIntervals :=
       {| wrong := 60; again := 360; hard := 1440;
          correct := 4320; easy := 10080;
          wrongMultiplier := 11 # 10; againMultiplier := 12 # 10;
          hardMultiplier := 15 # 10; correctMultiplier := 2;
          easyMultiplier := 25 # 10 |} |}.

(** ** services/storage: the study logs *)

Inductive Promise (A : Type) : Type :=
  | Resolved (a : A)
  | Rejected.
Arguments Resolved {A} a.
Arguments Rejected {A}.

(** The key-value store, restricted to the key [eigo_study_logs]; the value
    is kept parsed.  [readable] and [writable] tell whether [getItem] and
    [setItem] resolve. *)
Record AsyncStorage : Type := mkAsyncStorage {
  eigo_study_logs : option (list StudyLog);
  readable : bool;
  writable : bool
}.

Definition AsyncStorage_getItem (s : AsyncStorage)
    : Promise (option (list StudyLog)) :=
  if readable s then Resolved (eigo_study_logs s) else Rejected.

Definition AsyncStorage_setItem (s : AsyncStorage) (v : list StudyLog)
    : Promise AsyncStorage :=
  if writable s
  then Resolved {| eigo_study_logs := Some v;
                   readable := readable s;
                   writable := writable s |}
  else Rejected.

(** [LogStorage.getAll]: a missing key and a failed read both give []. *)
Definition LogStorage_getAll (s : AsyncStorage) : list StudyLog :=
  match AsyncStorage_getItem s with
  | Resolved (Some jsonValue) => jsonValue
  | Resolved None => []
  | Rejected => []
  end.

(** [LogStorage.save]: the result is [true] when the write went through and
    [false] when it was caught. *)
Definition LogStorage_save (s : AsyncStorage) (log : StudyLog)
    : bool * AsyncStorage :=
  let logs := LogStorage_getAll s ++ [log] in
  match AsyncStorage_setItem s logs with
  | Resolved s' => (true, s')
  | Rejected => (false, s)
  end.

(** ** hooks/useDeck *)

Record Progress : Type := mkProgress { completed : nat; total : nat }.

Module SessionStats.
Record t : Type := mk {
  correct : nat;
  incorrect : nat;
  again : nat;
  hard : nat;
  easy : nat
}.
End SessionStats.

(** The state held by the hook. *)
Record DeckState : Type := mkDeckState {
  deck : option Deck.t;
  cards : list WordCard.t;
  studyCards : list WordCard.t;
  currentCardIndex : nat;
  currentCard : option WordCard.t;
  logs : list StudyLog;
  settings : option UserSettings;
  isLoading : bool;
  progress : Progress;
  sessionStats : SessionStats.t
}.

(** What one call of [handleResponse] reads from outside: the clock inside
    [calculateNextReviewDate], the clock for [studiedAt], and the fresh
    uuid. *)
Record ResponseEnv : Type := mkResponseEnv {
  clockCalc : Q;
  clockLog : Q;
  uuidv4 : string
}.

(** The two objects [handleResponse] builds from the settings. *)
Definition settingsIntervals (s : UserSettings) : PerResponse := fun r =>
  match r with
  | WRONG => wrong (reviewIntervals s) * 60 * 1000
  | AGAIN => again (reviewIntervals s) * 60 * 1000
  | HARD => hard (reviewIntervals s) * 60 * 1000
  | CORRECT => correct (reviewIntervals s) * 60 * 1000
  | EASY => easy (reviewIntervals s) * 60 * 1000
  end.

Definition settingsMultipliers (s : UserSettings) : PerResponse := fun r =>
  match r with
  | WRONG => wrongMultiplier (reviewIntervals s)
  | AGAIN => againMultiplier (reviewIntervals s)
  | HARD => hardMultiplier (reviewIntervals s)
  | CORRECT => correctMultiplier (reviewIntervals s)
  | EASY => easyMultiplier (reviewIntervals s)
  end.

(** The log [handleResponse] creates for the current card. *)
Definition newStudyLog (env : ResponseEnv) (st : DeckState)
    (card : WordCard.t) (d : Deck.t) (s : UserSettings)
    (rt : ResponseType) (responseTime0 : Q) : StudyLog :=
  let cardLogs :=
    filter (fun log => String.eqb (cardId log) (WordCard.id card)) (logs st) in
  let nextReviewDate0 :=
    calculateNextReviewDate (clockCalc env) (WordCard.id card) rt cardLogs
      (settingsIntervals s) (settingsMultipliers s) in
  {| id := uuidv4 env;
     cardId := WordCard.id card;
     deckId := Deck.id d;
     studiedAt := clockLog env;
     responseTime := responseTime0;
     responseType := rt;
     nextReviewDate := nextReviewDate0 |}.

Definition updateStats (prev : SessionStats.t) (rt : ResponseType)
    : SessionStats.t :=
  match rt with
  | CORRECT =>
      SessionStats.mk (S (SessionStats.correct prev))
        (SessionStats.incorrect prev) (SessionStats.again prev)
        (SessionStats.hard prev) (SessionStats.easy prev)
  | WRONG =>
      SessionStats.mk (SessionStats.correct prev)
        (S (SessionStats.incorrect prev)) (SessionStats.again prev)
        (SessionStats.hard prev) (SessionStats.easy prev)
  | AGAIN =>
      SessionStats.mk (SessionStats.correct prev)
        (SessionStats.incorrect prev) (S (SessionStats.again prev))
        (SessionStats.hard prev) (SessionStats.easy prev)
  | HARD =>
      SessionStats.mk (SessionStats.correct prev)
        (SessionStats.incorrect prev) (SessionStats.again prev)
        (S (SessionStats.hard prev)) (SessionStats.easy prev)
  | EASY =>
      SessionStats.mk (SessionStats.correct prev)
        (SessionStats.incorrect prev) (SessionStats.again prev)
        (SessionStats.hard prev) (S (SessionStats.easy prev))
  end.

(** [handleResponse]: the state of the hook and the store after the call.
    The value of [LogStorage.save] is not bound by the caller; nothing in
    the [try] block throws, so its [catch] is never entered. *)
Definition handleResponse (env : ResponseEnv) (st : DeckState)
    (store : AsyncStorage) (rt : ResponseType) (responseTime0 : Q)
    : DeckState * AsyncStorage :=
  match currentCard st, deck st, settings st with
  | Some card, Some d, Some s =>
      let studyLog := newStudyLog env st card d s rt responseTime0 in
      let '(_, store') := LogStorage_save store studyLog in
      let nextIndex := S (currentCardIndex st) in
      ({| deck := deck st;
          cards := cards st;
          studyCards := studyCards st;
          currentCardIndex := nextIndex;
          currentCard :=
            if (nextIndex <? List.length (studyCards st))%nat
            then nth_error (studyCards st) nextIndex
            else None;
          logs := logs st ++ [studyLog];
          settings := settings st;
          isLoading := isLoading st;
          progress :=
            {| completed := S (completed (progress st));
               total := total (progress st) |};
          sessionStats := updateStats (sessionStats st) rt |},
       store')
  | _, _, _ => (st, store)
  end.

(** [isSessionComplete] as the hook returns it. *)
Definition isSessionComplete (p : Progress) : bool :=
  (completed p =? total p)%nat && (0 <? total p)%nat.

(** [resetSession]; [shuffle] is the outcome of the random-comparator sort. *)
Definition resetSession (d : Today)
    (shuffle : list WordCard.t -> list WordCard.t) (st : DeckState)
    : DeckState :=
  match settings st, deck st with
  | Some s, Some dk =>
      let today :=
        calculateTodayCards d (logs st) (newCardsPerDay s)
          (reviewCardsPerDay s) (Deck.cardIds dk) in
      let todayCardIds := reviewCardIds today ++ newCardIds today in
      let todayCards :=
        filter (fun card =>
                  existsb (String.eqb (WordCard.id card)) todayCardIds)
               (cards st) in
      let shuffledCards := shuffle todayCards in
      {| deck := deck st;
         cards := cards st;
         studyCards := shuffledCards;
         currentCardIndex := 0;
         currentCard := nth_error shuffledCards 0;
         logs := logs st;
         settings := settings st;
         isLoading := false;
         progress := {| completed := 0; total := List.length shuffledCards |};
         sessionStats := SessionStats.mk 0 0 0 0 0 |}
  | _, _ =>
      {| deck := deck st;
         cards := cards st;
         studyCards := studyCards st;
         currentCardIndex := currentCardIndex st;
         currentCard := currentCard st;
         logs := logs st;
         settings := settings st;
         isLoading := false;
         progress := progress st;
         sessionStats := sessionStats st |}
  end.

(** ** The words of the specification *)

(** "the prior log with the maximum studiedAt (most recent)" among the logs
    of a card. *)
Definition mostRecentLog (logs0 : list StudyLog) (cid : string)
    (l : StudyLog) : Prop :=
  In l logs0 /\ cardId l = cid /\
  forall l', In l' logs0 -> cardId l' = cid -> studiedAt l' <= studiedAt l.

(** "it has a log recorded within today's window" *)
Definition answeredToday (d : Today) (logs0 : list StudyLog) (cid : string)
    : Prop :=
  exists l, In l logs0 /\ cardId l = cid /\
            todayStart d <= studiedAt l /\ studiedAt l < tomorrowStart d.

(** Most-recent-first order, the order [previousLogs] is documented to have. *)
Fixpoint newestFirst (logs0 : list StudyLog) : Prop :=
  match logs0 with
  | [] => True
  | l :: rest =>
      (forall l', In l' rest -> studiedAt l' <= studiedAt l) /\ newestFirst rest
  end.

(** ** Sample data *)

Definition day (n : Z) : Q := inject_Z (n * 86400000).

(** Card c1 was answered HARD on day 1 (due again on day 2) and CORRECT on
    day 2 (due again on day 5). *)
Definition logOld : StudyLog :=
  {| id := "l1"; cardId := "c1"; deckId := "d1";
     studiedAt := day 1; responseTime := 3000;
     responseType := HARD; nextReviewDate := day 2 |}.

Definition logNew : StudyLog :=
  {| id := "l2"; cardId := "c1"; deckId := "d1";
     studiedAt := day 2; responseTime := 3000;
     responseType := CORRECT; nextReviewDate := day 5 |}.

(** The logs in the order [LogStorage.save] leaves them in the store. *)
Definition storedLogs : list StudyLog := [logOld; logNew].

Definition cardA : WordCard.t := WordCard.mk "c1" "apple".
Definition cardB : WordCard.t := WordCard.mk "c2" "book".
Definition deckD : Deck.t := Deck.mk "d1" "basic" ["c1"; "c2"].

(** A session on day 5 with c1 current and c2 next. *)
Definition sessionWith (s : UserSettings) : DeckState :=
  {| deck := Some deckD;
     cards := [cardA; cardB];
     studyCards := [cardA; cardB];
     currentCardIndex := 0;
     currentCard := Some cardA;
     logs := storedLogs;
     settings := Some s;
     isLoading := false;
     progress := {| completed := 0; total := 2 |};
     sessionStats := SessionStats.mk 0 0 0 0 0 |}.

Definition session0 : DeckState := sessionWith DEFAULT_USER_SETTINGS.

Definition envDay5 : ResponseEnv :=
  {| clockCalc := day 5; clockLog := day 5; uuidv4 := "l3" |}.

(** A store whose writes are rejected (a full disk, say). *)
Definition failingStore : AsyncStorage :=
  {| eigo_study_logs := Some storedLogs; readable := true; writable := false |}.

(** A store that accepts reads and writes. *)
Definition workingStore : AsyncStorage :=
  {| eigo_study_logs := Some storedLogs; readable := true; writable := true |}.

(** A deck without cards: its queue is empty. *)
Definition emptySession : DeckState :=
  {| deck := Some (Deck.mk "d0" "empty" []);
     cards := [];
     studyCards := [];
     currentCardIndex := 0;
     currentCard := None;
     logs := storedLogs;
     settings := Some DEFAULT_USER_SETTINGS;
     isLoading := false;
     progress := {| completed := 0; total := 0 |};
     sessionStats := SessionStats.mk 0 0 0 0 0 |}.

(** A shuffle that happens to leave the order as it is. *)
Definition noShuffle (l : list WordCard.t) : list WordCard.t := l.

(** One hour into day 4, on a device whose local time is UTC. *)
Definition day4 : Today := utcToday (4 * 86400000 + 3600000).

(** Base intervals of 200 days for every response. *)
Definition longIntervals : PerResponse :=
  fun _ => 1000 * 60 * 60 * 24 * 200.


(** "the card has a log" *)
Definition hasLog (logs0 : list StudyLog) (cid : string) : bool :=
  existsb (fun l => String.eqb (cardId l) cid) logs0.

(** A log of c1 recorded one hour into day 4. *)
Definition logToday : StudyLog :=
  {| id := "l4"; cardId := "c1"; deckId := "d1";
     studiedAt := day 4 + 3600000; responseTime := 3000;
     responseType := HARD; nextReviewDate := day 5 + 3600000 |}.

(** ** More of services/storage: reading the study logs *)

(** [arr.sort(compare)]: the sort is stable, so with a comparator that is a
    difference of keys its result is the one of a stable insertion sort.
    [x] goes before the first [y] with [compare x y <= 0]. *)
Fixpoint Array_sort_insert {A : Type} (compare : A -> A -> Q) (x : A)
    (sorted : list A) : list A :=
  match sorted with
  | [] => [x]
  | y :: rest =>
      if Qle_bool (compare x y) 0 then x :: y :: rest
      else y :: Array_sort_insert compare x rest
  end.

Definition Array_sort {A : Type} (compare : A -> A -> Q) (arr : list A)
    : list A :=
  fold_right (Array_sort_insert compare) [] arr.

(** The comparator [(a, b) => b.studiedAt - a.studiedAt]. *)
Definition byStudiedAtDesc (a b : StudyLog) : Q := studiedAt b - studiedAt a.

(** [LogStorage.getByCardId] *)
Definition LogStorage_getByCardId (s : AsyncStorage) (cardId0 : string)
    : list StudyLog :=
  let logs := LogStorage_getAll s in
  Array_sort byStudiedAtDesc
    (filter (fun log => String.eqb (cardId log) cardId0) logs).

(** [LogStorage.getByDeckId] *)
Definition LogStorage_getByDeckId (s : AsyncStorage) (deckId0 : string)
    : list StudyLog :=
  let logs := LogStorage_getAll s in
  Array_sort byStudiedAtDesc
    (filter (fun log => String.eqb (deckId log) deckId0) logs).

(** [LogStorage.getByDateRange]: both bounds are included. *)
Definition LogStorage_getByDateRange (s : AsyncStorage) (startDate endDate : Q)
    : list StudyLog :=
  let logs := LogStorage_getAll s in
  filter (fun log => Qle_bool startDate (studiedAt log)
                     && Qle_bool (studiedAt log) endDate) logs.

(** [LogStorage.getToday]; [startOfDay] is the local midnight before now. *)
Definition LogStorage_getToday (d : Today) (s : AsyncStorage)
    : list StudyLog :=
  let startOfDay := todayStart d in
  let endOfDay := startOfDay + 24 * 60 * 60 * 1000 - 1 in
  LogStorage_getByDateRange s startOfDay endOfDay.

(** ** More of services/storage: decks and cards *)

(** [arr.findIndex(p)]: [None] stands for -1. *)
Fixpoint Array_findIndex {A : Type} (p : A -> bool) (arr : list A)
    : option nat :=
  match arr with
  | [] => None
  | x :: rest =>
      if p x then Some 0%nat
      else match Array_findIndex p rest with
           | Some i => Some (S i)
           | None => None
           end
  end.

(** [arr[i] = v] for an index inside the array, the only case the sources
    have. *)
Fixpoint Array_set {A : Type} (arr : list A) (i : nat) (v : A) : list A :=
  match arr, i with
  | [], _ => []
  | _ :: rest, O => v :: rest
  | x :: rest, S j => x :: Array_set rest j v
  end.

(** A [Map<string, V>]: the entries in insertion order, one per key. *)
Definition JsMap (V : Type) := list (string * V).

Definition Map_has {V : Type} (m : JsMap V) (k : string) : bool :=
  existsb (fun e => String.eqb (fst e) k) m.

(** [m.set(k, v)]: an existing key keeps its place. *)
Fixpoint Map_set {V : Type} (m : JsMap V) (k : string) (v : V) : JsMap V :=
  match m with
  | [] => [(k, v)]
  | e :: rest =>
      if String.eqb (fst e) k then (k, v) :: rest
      else e :: Map_set rest k v
  end.

(** [Array.from(m.values())] *)
Definition Map_values {V : Type} (m : JsMap V) : list V := map snd m.

(** One key of the key-value store, holding an array of [A]; the value is
    kept parsed.  [canRead] and [canWrite] tell whether [getItem] and
    [setItem] resolve. *)
Record KeyStore (A : Type) : Type := mkKeyStore {
  stored : option (list A);
  canRead : bool;
  canWrite : bool
}.
Arguments mkKeyStore {A} _ _ _.
Arguments stored {A} _.
Arguments canRead {A} _.
Arguments canWrite {A} _.

Definition KeyStore_getItem {A : Type} (s : KeyStore A)
    : Promise (option (list A)) :=
  if canRead s then Resolved (stored s) else Rejected.

Definition KeyStore_setItem {A : Type} (s : KeyStore A) (v : list A)
    : Promise (KeyStore A) :=
  if canWrite s
  then Resolved {| stored := Some v;
                   canRead := canRead s;
                   canWrite := canWrite s |}
  else Rejected.

(** [x.id === id0] *)
Definition idIs {A : Type} (getId : A -> string) (id0 : string) (x : A)
    : bool :=
  String.eqb (getId x) id0.

(** [DeckStorage] and [CardStorage] share the code of [getAll], [getById],
    [save] and [remove]; it is written once, over the three things that
    depend on the type: the [id] field, [{...x, updatedAt: now}] and
    [{...x, createdAt: now, updatedAt: now}]. *)
Section Crud.

Context {A : Type}.
Variable getId : A -> string.
Variable touch : Q -> A -> A.
Variable create : Q -> A -> A.

Definition Crud_getAll (s : KeyStore A) : list A :=
  match KeyStore_getItem s with
  | Resolved (Some jsonValue) => jsonValue
  | Resolved None => []
  | Rejected => []
  end.

(** [items.find(x => x.id === id) || null] *)
Definition Crud_getById (s : KeyStore A) (id0 : string) : option A :=
  find (fun x => String.eqb (getId x) id0) (Crud_getAll s).

Definition Crud_save (now0 : Q) (s : KeyStore A) (x : A)
    : bool * KeyStore A :=
  let items := Crud_getAll s in
  let index := Array_findIndex (fun c => String.eqb (getId c) (getId x)) items in
  let items :=
    match index with
    | Some i => Array_set items i (touch now0 x)
    | None => items ++ [create now0 x]
    end in
  match KeyStore_setItem s items with
  | Resolved s' => (true, s')
  | Rejected => (false, s)
  end.

(** The array a successful [save] writes, as a function of the array it
    read. *)
Definition Crud_savedItems (now0 : Q) (items : list A) (x : A) : list A :=
  match Array_findIndex (idIs getId (getId x)) items with
  | Some i => Array_set items i (touch now0 x)
  | None => items ++ [create now0 x]
  end.

Definition Crud_remove (s : KeyStore A) (id0 : string) : bool * KeyStore A :=
  let items := Crud_getAll s in
  let filtered := filter (fun x => negb (String.eqb (getId x) id0)) items in
  if (List.length filtered =? List.length items)%nat
  then (false, s)
  else
    match KeyStore_setItem s filtered with
    | Resolved s' => (true, s')
    | Rejected => (false, s)
    end.

(** [CardStorage.bulkSave], over the same three operations. *)
Definition Crud_bulkSave (now0 : Q) (s : KeyStore A) (xs : list A)
    : bool * KeyStore A :=
  let existing := Crud_getAll s in
  let cardMap : JsMap A :=
    fold_left (fun m x => Map_set m (getId x) x) existing [] in
  let cardMap :=
    fold_left
      (fun m x =>
         if Map_has m (getId x)
         then Map_set m (getId x) (touch now0 x)
         else Map_set m (getId x) (create now0 x))
      xs cardMap in
  let updated := Map_values cardMap in
  match KeyStore_setItem s updated with
  | Resolved s' => (true, s')
  | Rejected => (false, s)
  end.

End Crud.

(** A [Deck] as the store holds it, with its timestamps. *)
Module DeckEntry.
Record t : Type := mk {
  id : string;
  name : string;
  description : option string;
  cardIds : list string;
  createdAt : Q;
  updatedAt : Q
}.
Definition touch (now0 : Q) (d : t) : t :=
  mk (id d) (name d) (description d) (cardIds d) (createdAt d) now0.
Definition create (now0 : Q) (d : t) : t :=
  mk (id d) (name d) (description d) (cardIds d) now0 now0.
End DeckEntry.

(** A [WordCard] as the store holds it.  The fields [phonetic],
    [etymology], [meanings], [memorizationTip] and [tags] are copied along
    by every operation and are left out. *)
Module CardEntry.
Record t : Type := mk {
  id : string;
  word : string;
  createdAt : Q;
  updatedAt : Q
}.
Definition touch (now0 : Q) (c : t) : t :=
  mk (id c) (word c) (createdAt c) now0.
Definition create (now0 : Q) (c : t) : t :=
  mk (id c) (word c) now0 now0.
End CardEntry.

Definition DeckStore := KeyStore DeckEntry.t.
Definition CardStore := KeyStore CardEntry.t.

Definition DeckStorage_getAll : DeckStore -> list DeckEntry.t := Crud_getAll.
Definition DeckStorage_getById : DeckStore -> string -> option DeckEntry.t :=
  Crud_getById DeckEntry.id.
Definition DeckStorage_save
    : Q -> DeckStore -> DeckEntry.t -> bool * DeckStore :=
  Crud_save DeckEntry.id DeckEntry.touch DeckEntry.create.
Definition DeckStorage_remove : DeckStore -> string -> bool * DeckStore :=
  Crud_remove DeckEntry.id.

Definition CardStorage_getAll : CardStore -> list CardEntry.t := Crud_getAll.
Definition CardStorage_getById : CardStore -> string -> option CardEntry.t :=
  Crud_getById CardEntry.id.
Definition CardStorage_save
    : Q -> CardStore -> CardEntry.t -> bool * CardStore :=
  Crud_save CardEntry.id CardEntry.touch CardEntry.create.
Definition CardStorage_remove : CardStore -> string -> bool * CardStore :=
  Crud_remove CardEntry.id.
Definition CardStorage_bulkSave
    : Q -> CardStore -> list CardEntry.t -> bool * CardStore :=
  Crud_bulkSave CardEntry.id CardEntry.touch CardEntry.create.

(** [DeckStorage.addCards]; [now1] is the clock read by [addCards] itself,
    [now2] the one read by [save]. *)
Definition DeckStorage_addCards (now1 now2 : Q) (s : DeckStore)
    (deckId0 : string) (cardIds0 : list string) : bool * DeckStore :=
  match DeckStorage_getById s deckId0 with
  | None => (false, s)
  | Some deck0 =>
      let uniqueCardIds := Set_new (DeckEntry.cardIds deck0 ++ cardIds0) in
      let deck1 :=
        DeckEntry.mk (DeckEntry.id deck0) (DeckEntry.name deck0)
          (DeckEntry.description deck0) (Array_from uniqueCardIds)
          (DeckEntry.createdAt deck0) now1 in
      DeckStorage_save now2 s deck1
  end.

(** [DeckStorage.removeCards] *)
Definition DeckStorage_removeCards (now1 now2 : Q) (s : DeckStore)
    (deckId0 : string) (cardIds0 : list string) : bool * DeckStore :=
  match DeckStorage_getById s deckId0 with
  | None => (false, s)
  | Some deck0 =>
      let cardIdSet := Set_new cardIds0 in
      let deck1 :=
        DeckEntry.mk (DeckEntry.id deck0) (DeckEntry.name deck0)
          (DeckEntry.description deck0)
          (filter (fun id0 => negb (Set_has cardIdSet id0))
                  (DeckEntry.cardIds deck0))
          (DeckEntry.createdAt deck0) now1 in
      DeckStorage_save now2 s deck1
  end.

(** ** More of services/storage: the settings *)

(** A [Partial<UserSettings>]: [None] is an absent property. *)
Module PartialSettings.
Record t : Type := mk {
  newCardsPerDay : option Z;
  reviewCardsPerDay : option Z;
  reviewIntervals : option ReviewIntervals
}.
End PartialSettings.

(** [{ ...base, ...p }]: a property of [p] replaces the one of [base] as a
    whole. *)
Definition spreadSettings (base : UserSettings) (p : PartialSettings.t)
    : UserSettings :=
  {| newCardsPerDay :=
       match PartialSettings.newCardsPerDay p with
       | Some v => v
       | None => newCardsPerDay base
       end;
     reviewCardsPerDay :=
       match PartialSettings.reviewCardsPerDay p with
       | Some v => v
       | None => reviewCardsPerDay base
       end;
     reviewIntervals :=
       match PartialSettings.reviewIntervals p with
       | Some v => v
       | None => reviewIntervals base
       end |}.

(** A whole settings object as a stored value. *)
Definition allSettings (s : UserSettings) : PartialSettings.t :=
  PartialSettings.mk (Some (newCardsPerDay s)) (Some (reviewCardsPerDay s))
    (Some (reviewIntervals s)).

(** The key [eigo_user_settings]. *)
Record SettingsStore : Type := mkSettingsStore {
  eigo_user_settings : option PartialSettings.t;
  settingsReadable : bool;
  settingsWritable : bool
}.

Definition SettingsStore_setItem (s : SettingsStore) (v : PartialSettings.t)
    : Promise SettingsStore :=
  if settingsWritable s
  then Resolved {| eigo_user_settings := Some v;
                   settingsReadable := settingsReadable s;
                   settingsWritable := settingsWritable s |}
  else Rejected.

(** [SettingsStorage.get] *)
Definition SettingsStorage_get (s : SettingsStore) : UserSettings :=
  if settingsReadable s
  then match eigo_user_settings s with
       | Some jsonValue => spreadSettings DEFAULT_USER_SETTINGS jsonValue
       | None => DEFAULT_USER_SETTINGS
       end
  else DEFAULT_USER_SETTINGS.

(** [SettingsStorage.save] *)
Definition SettingsStorage_save (s : SettingsStore) (p : PartialSettings.t)
    : bool * SettingsStore :=
  let currentSettings := SettingsStorage_get s in
  let updatedSettings := spreadSettings currentSettings p in
  match SettingsStore_setItem s (allSettings updatedSettings) with
  | Resolved s' => (true, s')
  | Rejected => (false, s)
  end.

(** [SettingsStorage.reset] *)
Definition SettingsStorage_reset (s : SettingsStore) : bool * SettingsStore :=
  match SettingsStore_setItem s (allSettings DEFAULT_USER_SETTINGS) with
  | Resolved s' => (true, s')
  | Rejected => (false, s)
  end.

(** ** More of hooks/useDeck: loading a deck, and a whole session *)

(** What the hook reads of a stored deck and of a stored card. *)
Definition deckOfEntry (e : DeckEntry.t) : Deck.t :=
  Deck.mk (DeckEntry.id e) (DeckEntry.name e) (DeckEntry.cardIds e).

Definition cardOfEntry (e : CardEntry.t) : WordCard.t :=
  WordCard.mk (CardEntry.id e) (CardEntry.word e).

(** [arr.includes(x)] on strings. *)
Definition Array_includes (arr : list string) (x : string) : bool :=
  existsb (String.eqb x) arr.

(** The state of the hook at its first render. *)
Definition initialState : DeckState :=
  {| deck := None;
     cards := [];
     studyCards := [];
     currentCardIndex := 0;
     currentCard := None;
     logs := [];
     settings := None;
     isLoading := true;
     progress := {| completed := 0; total := 0 |};
     sessionStats := SessionStats.mk 0 0 0 0 0 |}.

(** [loadDeckAndCards], the effect run for [deckId0].  A deck that is not
    found throws after the settings were set; the [catch] logs, the
    [finally] clears [isLoading]. *)
Definition loadDeckAndCards (d : Today)
    (shuffle : list WordCard.t -> list WordCard.t) (deckId0 : string)
    (settingsStore : SettingsStore) (deckStore : DeckStore)
    (cardStore : CardStore) (logStore : AsyncStorage) (st : DeckState)
    : DeckState :=
  let userSettings := SettingsStorage_get settingsStore in
  match DeckStorage_getById deckStore deckId0 with
  | None =>
      {| deck := deck st;
         cards := cards st;
         studyCards := studyCards st;
         currentCardIndex := currentCardIndex st;
         currentCard := currentCard st;
         logs := logs st;
         settings := Some userSettings;
         isLoading := false;
         progress := progress st;
         sessionStats := sessionStats st |}
  | Some entry =>
      let deckData := deckOfEntry entry in
      let allCards := map cardOfEntry (CardStorage_getAll cardStore) in
      let deckCards :=
        filter (fun card =>
                  Array_includes (Deck.cardIds deckData) (WordCard.id card))
               allCards in
      let studyLogs := LogStorage_getAll logStore in
      let today :=
        calculateTodayCards d studyLogs (newCardsPerDay userSettings)
          (reviewCardsPerDay userSettings) (Deck.cardIds deckData) in
      let todayCardIds := reviewCardIds today ++ newCardIds today in
      let todayCards :=
        filter (fun card => Array_includes todayCardIds (WordCard.id card))
               allCards in
      let shuffledCards := shuffle todayCards in
      {| deck := Some deckData;
         cards := deckCards;
         studyCards := shuffledCards;
         currentCardIndex := currentCardIndex st;
         currentCard :=
           if (0 <? List.length shuffledCards)%nat
           then nth_error shuffledCards 0
           else currentCard st;
         logs := studyLogs;
         settings := Some userSettings;
         isLoading := false;
         progress := {| completed := 0; total := List.length shuffledCards |};
         sessionStats := sessionStats st |}
  end.

(** One answer of the learner, with what the call reads from outside. *)
Record Answer : Type := mkAnswer {
  answerEnv : ResponseEnv;
  answerType : ResponseType;
  answerTime : Q
}.

(** The calls of [handleResponse] for a sequence of answers, each on the
    state and the store the previous one left. *)
Fixpoint handleResponses (answers : list Answer) (st : DeckState)
    (store : AsyncStorage) : DeckState * AsyncStorage :=
  match answers with
  | [] => (st, store)
  | a :: rest =>
      let '(st', store') :=
        handleResponse (answerEnv a) st store (answerType a) (answerTime a) in
      handleResponses rest st' store'
  end.

(** The sum of the five counters of the session. *)
Definition statsTotal (s : SessionStats.t) : nat :=
  SessionStats.correct s + SessionStats.incorrect s + SessionStats.again s
  + SessionStats.hard s + SessionStats.easy s.

(** The state a session keeps between two answers: the position counts the
    answers, the total is the length of the queue, and the current card is
    the card at the position, or none beyond the end. *)
Definition sessionInvariant (st : DeckState) : Prop :=
  currentCardIndex st = completed (progress st)
  /\ total (progress st) = List.length (studyCards st)
  /\ currentCard st = nth_error (studyCards st) (currentCardIndex st)
  /\ statsTotal (sessionStats st) = completed (progress st)
  /\ deck st <> None
  /\ settings st <> None.

(** The order on the response scale, worst to best. *)
Definition responseRank (r : ResponseType) : nat :=
  match r with
  | WRONG => 0
  | AGAIN => 1
  | HARD => 2
  | CORRECT => 3
  | EASY => 4
  end.

(** ** More sample data *)

Definition deckEntryD : DeckEntry.t :=
  DeckEntry.mk "d1" "basic" None ["c1"; "c2"] (day 0) (day 0).

Definition deckEntryE : DeckEntry.t :=
  DeckEntry.mk "d2" "extra" (Some "more words") ["c3"] (day 1) (day 1).

Definition cardEntryA : CardEntry.t := CardEntry.mk "c1" "apple" (day 0) (day 0).
Definition cardEntryB : CardEntry.t := CardEntry.mk "c2" "book" (day 0) (day 0).
Definition cardEntryC : CardEntry.t := CardEntry.mk "c3" "cat" (day 1) (day 1).

Definition deckStore0 : DeckStore :=
  mkKeyStore (Some [deckEntryD; deckEntryE]) true true.

Definition cardStore0 : CardStore :=
  mkKeyStore (Some [cardEntryA; cardEntryB; cardEntryC]) true true.

Definition settingsStore0 : SettingsStore :=
  {| eigo_user_settings := None;
     settingsReadable := true;
     settingsWritable := true |}.

(** A store whose reads are rejected and whose writes go through. *)
Definition unreadableStore : AsyncStorage :=
  {| eigo_study_logs := Some storedLogs; readable := false; writable := true |}.

Definition answerAt (t : Q) (u : string) (r : ResponseType) : Answer :=
  mkAnswer {| clockCalc := t; clockLog := t; uuidv4 := u |} r 3000.

(** ** app/(tabs)/index: the due cards of the home screen *)

(** [m.get(k)] *)
Definition Map_get {V : Type} (m : JsMap V) (k : string) : option V :=
  match find (fun e => String.eqb (fst e) k) m with
  | Some e => Some (snd e)
  | None => None
  end.

(** The loop of [loadStats] that keeps, for every card, its log with the
    greatest [studiedAt]. *)
Definition cardLastLogs (logs0 : list StudyLog) : JsMap StudyLog :=
  fold_left
    (fun m log =>
       match Map_get m (cardId log) with
       | Some existingLog =>
           if Qgtb (studiedAt log) (studiedAt existingLog)
           then Map_set m (cardId log) log
           else m
       | None => Map_set m (cardId log) log
       end)
    logs0 [].

(** [dueCardIds] of [loadStats]: the cards whose latest log is due and that
    were not studied today, then the cards without a log. *)
Definition homeDueCardIds (d : Today) (logs0 : list StudyLog)
    (cards0 : list CardEntry.t) : JsSet :=
  let todayStudiedCardIds :=
    Set_new (map cardId (filter (studiedToday d) logs0)) in
  let dueCardIds :=
    fold_left
      (fun due e =>
         if Qle_bool (nextReviewDate (snd e)) (now d)
            && negb (Set_has todayStudiedCardIds (fst e))
         then Set_add due (fst e)
         else due)
      (cardLastLogs logs0) [] in
  let studiedCardIds := Set_new (map cardId logs0) in
  fold_left
    (fun due card =>
       if negb (Set_has studiedCardIds (CardEntry.id card))
       then Set_add due (CardEntry.id card)
       else due)
    cards0 dueCardIds.

(** ** utils/spaced-repetition in binary64

    [calculateNextReviewDate] once more, on the kernel's binary64 numbers,
    which are the numbers of the source.  It is used to evaluate the code
    where the rounding of [now + interval] shows; the general statements
    are made on the rational embedding and speak of the interval that is
    added, not of a difference of rounded sums. *)
Module Binary64.

#[local] Set Warnings "-inexact-float".
Local Open Scope float_scope.

(** [Math.max] and [Math.min]: NaN if an argument is NaN, and +0 above -0. *)
Definition Math_max (a b : float) : float :=
  if is_nan a || is_nan b then nan
  else if a <? b then b
  else if b <? a then a
  else if is_zero a && get_sign a then b else a.

Definition Math_min (a b : float) : float :=
  if is_nan a || is_nan b then nan
  else if a <? b then a
  else if b <? a then b
  else if is_zero a && negb (get_sign a) then b else a.

Record StudyLog : Type := mkStudyLog {
  id : string;
  cardId : string;
  deckId : string;
  studiedAt : float;
  responseTime : float;
  responseType : ResponseType;
  nextReviewDate : float
}.

Definition PerResponse := ResponseType -> float.

Definition DEFAULT_INTERVALS : PerResponse := fun r =>
  match r with
  | WRONG => 1000 * 60 * 60
  | AGAIN => 1000 * 60 * 60 * 6
  | HARD => 1000 * 60 * 60 * 24
  | CORRECT => 1000 * 60 * 60 * 24 * 3
  | EASY => 1000 * 60 * 60 * 24 * 7
  end.

Definition DEFAULT_MULTIPLIERS : PerResponse := fun r =>
  match r with
  | WRONG => 1.1
  | AGAIN => 1.2
  | HARD => 1.5
  | CORRECT => 2.0
  | EASY => 2.5
  end.

(** The counter of the [for] loop, a number like the others. *)
Fixpoint consecutiveCorrect (cardLogs : list StudyLog) : float :=
  match cardLogs with
  | [] => 0
  | log :: rest =>
      if ResponseType_eqb (responseType log) CORRECT
         || ResponseType_eqb (responseType log) EASY
      then consecutiveCorrect rest + 1
      else 0
  end.

Definition calculateNextReviewDate (now0 : float) (cardId0 : string)
    (rt : ResponseType) (previousLogs : list StudyLog)
    (intervals multipliers : PerResponse) : float :=
  let interval := intervals rt in
  let cardLogs :=
    filter (fun log => String.eqb (cardId log) cardId0) previousLogs in
  let interval :=
    match cardLogs with
    | [] => interval
    | lastLog :: _ =>
        let timeSinceLastReview := now0 - studiedAt lastLog in
        let daysSinceLastReview :=
          timeSinceLastReview / (1000 * 60 * 60 * 24) in
        let adjustedMultiplier := multipliers rt in
        let scheduledReviewDate := nextReviewDate lastLog in
        let adjustedMultiplier :=
          if now0 <? scheduledReviewDate then adjustedMultiplier * 0.9
          else if scheduledReviewDate + 1000 * 60 * 60 * 24 * 7 <? now0
          then adjustedMultiplier * 0.7
          else adjustedMultiplier in
        let n := consecutiveCorrect cardLogs in
        let adjustedMultiplier :=
          if 0 <? n
          then
            let consecutiveFactor := 1 + n * 0.1 in
            adjustedMultiplier * consecutiveFactor
          else adjustedMultiplier in
        let previousInterval :=
          nextReviewDate lastLog - studiedAt lastLog in
        if ResponseType_eqb rt WRONG
        then intervals WRONG
        else Math_max (previousInterval * adjustedMultiplier) interval
    end in
  let MAX_INTERVAL := 1000 * 60 * 60 * 24 * 180 in
  let interval := Math_min interval MAX_INTERVAL in
  now0 + interval.

(** A clock of the year 2023, in milliseconds. *)
Definition now2023 : float := 1700000000000.

(** Two small positive base intervals, in milliseconds. *)
Definition tinyInterval : float := 0.3001.
Definition absorbedInterval : float := 6e-5.

(** The two logs of card c1 of the sample data, and day 5. *)
Definition msPerDay : float := 86400000.

Definition logOld : StudyLog :=
  {| id := "l1"; cardId := "c1"; deckId := "d1";
     studiedAt := msPerDay; responseTime := 3000;
     responseType := HARD; nextReviewDate := 2 * msPerDay |}.

Definition logNew : StudyLog :=
  {| id := "l2"; cardId := "c1"; deckId := "d1";
     studiedAt := 2 * msPerDay; responseTime := 3000;
     responseType := CORRECT; nextReviewDate := 5 * msPerDay |}.

End Binary64.

(** * Properties *)

(** ** Numbers *)

Lemma Qltb_lt (a b : Q) : Qltb a b = true <-> a < b.
Proof.
  unfold Qltb. rewrite negb_true_iff, <- not_true_iff_false, Qle_bool_iff.
  split; [apply Qnot_le_lt | apply Qlt_not_le].
Qed.







(** ** calculateNextReviewDate *)

Section NextReviewDate.

Variables (now0 : Q) (cid : string).
Variables (intervals multipliers : PerResponse).

Lemma reviewInterval_no_log (rt : ResponseType) (previousLogs : list StudyLog) :
  filter (fun log => String.eqb (cardId log) cid) previousLogs = [] ->
  reviewInterval now0 cid rt previousLogs intervals multipliers = intervals rt.
Proof. intro H. unfold reviewInterval. rewrite H. reflexivity. Qed.

Lemma reviewInterval_WRONG (previousLogs : list StudyLog) :
  reviewInterval now0 cid WRONG previousLogs intervals multipliers
  = intervals WRONG.
Proof.
  unfold reviewInterval.
  destruct (filter _ previousLogs); reflexivity.
Qed.




End NextReviewDate.

(** *** A WRONG answer *)

(** C7.  For responseType WRONG, whatever the prior logs and the multipliers,
    [calculateNextReviewDate] returns exactly
    [now + min (baseInterval WRONG) (180 days)]: the early/late adjustment
    and the streak bonus have no effect, only the ceiling does. *)
Theorem wrong_resets_to_clamped_base :
  forall (now0 : Q) (cid : string) (previousLogs : list StudyLog)
         (intervals multipliers : PerResponse),
    calculateNextReviewDate now0 cid WRONG previousLogs intervals multipliers
    == now0 + Math_min (intervals WRONG) MAX_INTERVAL.
Proof.
  intros. unfold calculateNextReviewDate. cbv zeta.
  rewrite reviewInterval_WRONG. reflexivity.
Qed.

(** Below the ceiling the reset is to the base interval itself. *)
Corollary wrong_resets_to_base :
  forall (now0 : Q) (cid : string) (previousLogs : list StudyLog)
         (intervals multipliers : PerResponse),
    intervals WRONG <= MAX_INTERVAL ->
    calculateNextReviewDate now0 cid WRONG previousLogs intervals multipliers
    == now0 + intervals WRONG.
Proof.
  intros now0 cid previousLogs intervals multipliers H.
  unfold calculateNextReviewDate. cbv zeta. rewrite reviewInterval_WRONG.
  unfold Math_min. rewrite (Q.min_l _ _ H). reflexivity.
Qed.

(** C7, as stated, fails: with a base interval of 200 days for WRONG the
    result is [now + 180 days], not [now + 200 days]. *)
Lemma wrong_base_above_ceiling :
  ~ (calculateNextReviewDate (day 5) "c1" WRONG storedLogs
       longIntervals DEFAULT_MULTIPLIERS
     == day 5 + longIntervals WRONG).
Proof. intro H. vm_compute in H. discriminate H. Qed.

(** *** A first answer *)

(** C8.  For every responseType and every configuration, when no prior log
    belongs to the card, [calculateNextReviewDate] returns exactly
    [now + min (baseInterval responseType) (180 days)]; no multiplier is
    applied. *)
Theorem first_answer_clamped_base :
  forall (now0 : Q) (cid : string) (rt : ResponseType)
         (previousLogs : list StudyLog) (intervals multipliers : PerResponse),
    filter (fun log => String.eqb (cardId log) cid) previousLogs = [] ->
    calculateNextReviewDate now0 cid rt previousLogs intervals multipliers
    == now0 + Math_min (intervals rt) MAX_INTERVAL.
Proof.
  intros now0 cid rt previousLogs intervals multipliers H.
  unfold calculateNextReviewDate. cbv zeta.
  rewrite (reviewInterval_no_log _ _ _ _ _ _ H). reflexivity.
Qed.

Lemma first_answer_clamped_base_witness :
  filter (fun log => String.eqb (cardId log) "c2") storedLogs = []
  /\ calculateNextReviewDate (day 5) "c2" EASY storedLogs
       DEFAULT_INTERVALS DEFAULT_MULTIPLIERS
     == day 5 + Math_min (DEFAULT_INTERVALS EASY) MAX_INTERVAL.
Proof.
  split.
  - reflexivity.
  - apply (first_answer_clamped_base (day 5) "c2" EASY storedLogs
             DEFAULT_INTERVALS DEFAULT_MULTIPLIERS).
    reflexivity.
Defined.

(** C8, as stated, fails: with a base interval of 200 days and an empty
    history the result is [now + 180 days]. *)
Lemma first_answer_base_above_ceiling :
  ~ (calculateNextReviewDate (day 5) "c1" HARD []
       longIntervals DEFAULT_MULTIPLIERS
     == day 5 + longIntervals HARD).
Proof. intro H. vm_compute in H. discriminate H. Qed.

(** *** The floor *)




(** *** Positivity *)






(** *** The rounding of the sum *)

(** In binary64 the sum [now + interval] is rounded, which is why C9 and
    C10 are stated on the interval that is added.  With a clock of 2023 and
    a base interval of 0.3001 ms, the returned timestamp minus now is
    0.300048828125 ms, less than the base interval. *)
Lemma binary64_difference_below_interval :
  PrimFloat.ltb
    (PrimFloat.sub
       (Binary64.calculateNextReviewDate Binary64.now2023 "c1" HARD []
          (fun _ => Binary64.tinyInterval) Binary64.DEFAULT_MULTIPLIERS)
       Binary64.now2023)
    Binary64.tinyInterval
  = true.
Proof. vm_compute. reflexivity. Qed.

(** With a positive base interval of 0.00006 ms the returned timestamp is
    now itself: the log would have [nextReviewDate = studiedAt]. *)
Lemma binary64_sum_absorbs_interval :
  PrimFloat.ltb PrimFloat.zero Binary64.absorbedInterval = true
  /\ PrimFloat.eqb
       (Binary64.calculateNextReviewDate Binary64.now2023 "c1" WRONG []
          (fun _ => Binary64.absorbedInterval) Binary64.DEFAULT_MULTIPLIERS)
       Binary64.now2023
     = true.
Proof. split; vm_compute; reflexivity. Qed.

(** On the sample data the two embeddings agree: 3 days in the order of the
    store, 6.6 days most recent first. *)
Lemma binary64_agrees_on_sample :
  PrimFloat.eqb
    (Binary64.calculateNextReviewDate (PrimFloat.mul 5 Binary64.msPerDay)
       "c1" CORRECT [Binary64.logOld; Binary64.logNew]
       Binary64.DEFAULT_INTERVALS Binary64.DEFAULT_MULTIPLIERS)
    (PrimFloat.mul 8 Binary64.msPerDay)
  = true
  /\ PrimFloat.eqb
       (Binary64.calculateNextReviewDate (PrimFloat.mul 5 Binary64.msPerDay)
          "c1" CORRECT [Binary64.logNew; Binary64.logOld]
          Binary64.DEFAULT_INTERVALS Binary64.DEFAULT_MULTIPLIERS)
       1002240000
     = true.
Proof. split; vm_compute; reflexivity. Qed.

(** *** The order of the prior logs *)


(** With the documented most-recent-first order, the head is the log with
    the maximum [studiedAt]. *)
Lemma newestFirst_head_mostRecent :
  forall cid l rest,
    newestFirst (l :: rest) ->
    (forall l', In l' (l :: rest) -> cardId l' = cid) ->
    mostRecentLog (l :: rest) cid l.
Proof.
  intros cid l rest [Hmax _] Hcid. repeat split.
  - now left.
  - apply Hcid. now left.
  - intros l' [<- | Hin] _; [apply Qle_refl | now apply Hmax].
Qed.

(** [LogStorage.save] appends: the store keeps the logs oldest first. *)
Lemma LogStorage_save_appends :
  forall s log,
    readable s = true -> writable s = true ->
    fst (LogStorage_save s log) = true
    /\ LogStorage_getAll (snd (LogStorage_save s log))
       = LogStorage_getAll s ++ [log].
Proof.
  intros s log Hr Hw.
  unfold LogStorage_save, AsyncStorage_setItem. rewrite Hw. cbn [fst snd].
  split; [reflexivity|].
  unfold LogStorage_getAll at 1, AsyncStorage_getItem.
  cbn [readable eigo_study_logs]. rewrite Hr. reflexivity.
Qed.

(** C3.  The code at the failing input.  On day 5 card c1 is answered
    CORRECT; its logs are [logOld] (day 1) and [logNew] (day 2).  In the
    order of the store, which is the order [handleResponse] passes on,
    [calculateNextReviewDate] takes [logOld] for [lastLog] and answers 3
    days; with the same two logs most recent first it answers 6.6 days.
    The log with the maximum [studiedAt] is [logNew] in both. *)
Theorem lastLog_depends_on_order :
  mostRecentLog [logOld; logNew] "c1" logNew
  /\ calculateNextReviewDate (day 5) "c1" CORRECT [logOld; logNew]
       DEFAULT_INTERVALS DEFAULT_MULTIPLIERS
     == day 5 + day 3
  /\ calculateNextReviewDate (day 5) "c1" CORRECT [logNew; logOld]
       DEFAULT_INTERVALS DEFAULT_MULTIPLIERS
     == day 5 + (66 # 10) * day 1
  /\ nextReviewDate
       (newStudyLog envDay5 session0 cardA deckD DEFAULT_USER_SETTINGS
          CORRECT 3000)
     == day 5 + day 3.
Proof.
  split; [|split; [|split]].
  - repeat split.
    + right. now left.
    + intros l' [<- | [<- | []]] _; vm_compute; discriminate.
  - vm_compute. reflexivity.
  - vm_compute. reflexivity.
  - vm_compute. reflexivity.
Qed.

(** ** calculateSuccessRate *)

(** The second threshold is never reached: a response time above 20 s is
    above 10 s, and the first branch takes it. *)
Lemma calculateSuccessRate_one_threshold :
  forall (rt : ResponseType) (t : Q),
    calculateSuccessRate rt t
    = Math_max 0
        (Math_min 100
           ((EASE_FACTORS rt / 5) * 100
            * (if Qgtb t 10000 then 9 # 10 else 1))).
Proof.
  intros rt t. unfold calculateSuccessRate. cbv zeta.
  destruct (Qgtb t 10000) eqn:H10; [reflexivity|].
  destruct (Qgtb t 20000) eqn:H20; [|reflexivity].
  exfalso. apply Qltb_lt in H20.
  assert (H : Qgtb t 10000 = true) by (apply Qltb_lt; lra).
  congruence.
Qed.

(** C5.  The code at the failing input: for EASY and a response time of
    25 s the score is 90 (the 0.9 scaling), not 70; and no response time
    above 20 s is ever scaled by 0.7. *)
Theorem success_rate_over_20s :
  calculateSuccessRate EASY 25000 == 90
  /\ ~ calculateSuccessRate EASY 25000 == (EASE_FACTORS EASY / 5) * 100 * (7 # 10)
  /\ forall (rt : ResponseType) (t : Q),
       calculateSuccessRate rt t
       = Math_max 0
           (Math_min 100
              ((EASE_FACTORS rt / 5) * 100
               * (if Qgtb t 10000 then 9 # 10 else 1))).
Proof.
  split; [|split].
  - vm_compute. reflexivity.
  - intro H. vm_compute in H. discriminate H.
  - exact calculateSuccessRate_one_threshold.
Qed.

(** ** Arrays and sets *)

Section Containers.

Context {A : Type}.

Lemma In_firstn (n : nat) (l : list A) (x : A) :
  In x (firstn n l) -> In x l.
Proof.
  intro H. rewrite <- (firstn_skipn n l). apply in_or_app. now left.
Qed.

Lemma In_Array_slice0 (arr : list A) (e : Z) (x : A) :
  In x (Array_slice0 arr e) -> In x arr.
Proof. unfold Array_slice0. apply In_firstn. Qed.

Lemma Array_slice0_length (arr : list A) (e : Z) :
  (0 <= e)%Z -> (Z.of_nat (List.length (Array_slice0 arr e)) <= e)%Z.
Proof.
  intro He. unfold Array_slice0. cbv zeta.
  destruct (Z.ltb_spec e 0) as [Hneg | _]; [lia|].
  rewrite length_firstn. lia.
Qed.

Lemma Array_slice0_zero (arr : list A) : Array_slice0 arr 0 = [].
Proof.
  unfold Array_slice0. cbn [Z.ltb Z.compare].
  replace (Z.to_nat (Z.min 0 (Z.of_nat (List.length arr)))) with 0%nat by lia.
  reflexivity.
Qed.

(** A negative [end] drops that many elements from the end. *)
Lemma Array_slice0_negative (arr : list A) (e : Z) :
  (e < 0)%Z ->
  Array_slice0 arr e = firstn (List.length arr - Z.to_nat (- e)) arr.
Proof.
  intro He. unfold Array_slice0. cbv zeta.
  destruct (Z.ltb_spec e 0) as [_ | Hge]; [|lia].
  f_equal. lia.
Qed.

End Containers.

Lemma Set_has_In (s : JsSet) (x : string) : Set_has s x = true <-> In x s.
Proof.
  unfold Set_has. rewrite existsb_exists. split.
  - intros [y [Hin Heq]]. apply String.eqb_eq in Heq. now subst.
  - intro Hin. exists x. split; [exact Hin | apply String.eqb_refl].
Qed.

Lemma Set_add_In (s : JsSet) (x y : string) :
  In y (Set_add s x) <-> In y s \/ y = x.
Proof.
  unfold Set_add. destruct (Set_has s x) eqn:Hhas.
  - apply Set_has_In in Hhas. split; [now left|].
    intros [H | ->]; assumption.
  - rewrite in_app_iff. cbn. intuition congruence.
Qed.

Lemma fold_Set_add_In (xs : list string) (acc : JsSet) (y : string) :
  In y (fold_left Set_add xs acc) <-> In y acc \/ In y xs.
Proof.
  revert acc. induction xs as [|x xs IH]; intro acc; cbn [fold_left].
  - cbn. tauto.
  - rewrite IH, Set_add_In. cbn. intuition congruence.
Qed.

Lemma Set_new_In (xs : list string) (y : string) :
  In y (Set_new xs) <-> In y xs.
Proof. unfold Set_new. rewrite fold_Set_add_In. cbn. tauto. Qed.

(** ** calculateTodayCards *)

Lemma studiedToday_spec (d : Today) (l : StudyLog) :
  studiedToday d l = true
  <-> todayStart d <= studiedAt l /\ studiedAt l < tomorrowStart d.
Proof.
  unfold studiedToday. now rewrite andb_true_iff, Qle_bool_iff, Qltb_lt.
Qed.

(** The review candidates are exactly the cards that have some log due and
    no log studied today. *)
Lemma reviewCandidates_spec (d : Today) (logs0 : list StudyLog) (cid : string) :
  In cid (reviewCandidates d logs0)
  <-> (exists l, In l logs0 /\ cardId l = cid /\ nextReviewDate l <= now d)
      /\ ~ answeredToday d logs0 cid.
Proof.
  unfold reviewCandidates, Array_from. rewrite Set_new_In, in_map_iff.
  split.
  - intros [l [Hcid Hin]].
    apply filter_In in Hin. destruct Hin as [Hin Hnone].
    apply filter_In in Hin. destruct Hin as [Hin Hdue].
    apply Qle_bool_iff in Hdue. apply Nat.eqb_eq in Hnone.
    apply length_zero_iff_nil in Hnone.
    split; [now exists l|].
    intros [l' [Hin' [Hcid' Htoday]]].
    assert (Hl' : In l' []); [|exact Hl'].
    rewrite <- Hnone. apply filter_In. split; [exact Hin'|].
    apply andb_true_iff. split.
    + apply String.eqb_eq. congruence.
    + now apply studiedToday_spec.
  - intros [[l [Hin [Hcid Hdue]]] Hnot].
    exists l. split; [exact Hcid|].
    apply filter_In. split.
    + apply filter_In. split; [exact Hin | now apply Qle_bool_iff].
    + apply Nat.eqb_eq, length_zero_iff_nil.
      destruct (filter _ logs0) as [|l' rest] eqn:Hf; [reflexivity|].
      exfalso. apply Hnot.
      assert (Hl' : In l' (l' :: rest)) by now left.
      rewrite <- Hf in Hl'. apply filter_In in Hl'.
      destruct Hl' as [Hin' Hb]. apply andb_true_iff in Hb.
      destruct Hb as [Hsame Htoday]. apply String.eqb_eq in Hsame.
      exists l'. split; [exact Hin'|]. split; [congruence|].
      now apply studiedToday_spec.
Qed.

(** C2.  The code at the failing input.  On day 4 the most recent log of
    c1 is [logNew], due on day 5 only; [calculateTodayCards] selects c1 for
    review all the same, through its older log [logOld], due since day
    2. *)
Lemma review_with_latest_log_in_future :
  In "c1" (reviewCardIds (calculateTodayCards day4 storedLogs 20 100 ["c1"; "c2"]))
  /\ mostRecentLog storedLogs "c1" logNew
  /\ ~ nextReviewDate logNew <= now day4.
Proof.
  split; [|split].
  - cbv. left. reflexivity.
  - repeat split.
    + right. now left.
    + intros l' [<- | [<- | []]] _; vm_compute; discriminate.
  - intro H. vm_compute in H. apply H. reflexivity.
Qed.

(** The home screen, on the same logs, goes by the latest log of each card:
    c1 is not due there, only the cards without a log are. *)
Lemma home_screen_goes_by_latest_log :
  cardLastLogs storedLogs = [("c1", logNew)]
  /\ homeDueCardIds day4 storedLogs [cardEntryA; cardEntryB; cardEntryC]
     = ["c2"; "c3"]
  /\ ~ In "c1"
         (homeDueCardIds day4 storedLogs [cardEntryA; cardEntryB; cardEntryC]).
Proof.
  split; [reflexivity|]. split; [reflexivity|].
  cbv. intros [H | [H | []]]; discriminate H.
Qed.

(** C4.  For non-negative caps, [len newCardIds <= newCardsPerDay] and
    [len reviewCardIds <= reviewCardsPerDay]; a cap of 0 yields the
    corresponding list empty. *)
Theorem caps_respected :
  forall (d : Today) (logs0 : list StudyLog) (newCap reviewCap : Z)
         (allCardIds : list string),
    (0 <= newCap)%Z -> (0 <= reviewCap)%Z ->
    let today := calculateTodayCards d logs0 newCap reviewCap allCardIds in
    (Z.of_nat (List.length (newCardIds today)) <= newCap)%Z
    /\ (Z.of_nat (List.length (reviewCardIds today)) <= reviewCap)%Z
    /\ (newCap = 0%Z -> newCardIds today = [])
    /\ (reviewCap = 0%Z -> reviewCardIds today = []).
Proof.
  intros d logs0 newCap reviewCap allCardIds Hn Hr today.
  subst today. cbn [calculateTodayCards newCardIds reviewCardIds].
  repeat split.
  - now apply Array_slice0_length.
  - now apply Array_slice0_length.
  - intros ->. apply Array_slice0_zero.
  - intros ->. apply Array_slice0_zero.
Qed.

Lemma caps_respected_witness :
  let today := calculateTodayCards day4 storedLogs 1 0 ["c1"; "c2"; "c3"] in
  (0 <= 1)%Z /\ (0 <= 0)%Z
  /\ (Z.of_nat (List.length (newCardIds today)) <= 1)%Z
  /\ (Z.of_nat (List.length (reviewCardIds today)) <= 0)%Z
  /\ reviewCardIds today = [].
Proof.
  cbv zeta.
  destruct (caps_respected day4 storedLogs 1 0 ["c1"; "c2"; "c3"])
    as [Hnew [Hreview [_ Hzero]]]; [lia | lia |].
  split; [lia|]. split; [lia|].
  split; [exact Hnew|]. split; [exact Hreview|].
  apply Hzero. reflexivity.
Defined.

(** C4, as stated, fails for a negative cap: with three new cards and
    [newCardsPerDay = -1], [slice(0, -1)] keeps two of them. *)
Lemma negative_cap_keeps_cards :
  newCardIds (calculateTodayCards day4 [] (-1) 100 ["c1"; "c2"; "c3"])
  = ["c1"; "c2"]
  /\ ~ (Z.of_nat (List.length
          (newCardIds
             (calculateTodayCards day4 [] (-1) 100 ["c1"; "c2"; "c3"])))
        <= -1)%Z.
Proof.
  split.
  - reflexivity.
  - cbv. intro H. apply H. reflexivity.
Qed.

(** ** The session *)

(** The state after [handleResponse] does not depend on the store, hence
    not on what [LogStorage.save] answered. *)
Lemma handleResponse_state_ignores_store :
  forall env st store1 store2 rt rtime,
    fst (handleResponse env st store1 rt rtime)
    = fst (handleResponse env st store2 rt rtime).
Proof.
  intros env st store1 store2 rt rtime. unfold handleResponse.
  destruct (currentCard st), (deck st), (settings st); try reflexivity.
  destruct (LogStorage_save store1 _), (LogStorage_save store2 _).
  reflexivity.
Qed.

(** A rejected write makes [LogStorage.save] answer [false] and leaves the
    store as it was. *)
Lemma LogStorage_save_rejected :
  forall s log, writable s = false -> LogStorage_save s log = (false, s).
Proof.
  intros s log Hw. unfold LogStorage_save, AsyncStorage_setItem.
  now rewrite Hw.
Qed.

(** With a current card, a deck and the settings loaded, every call
    advances the session. *)
Lemma handleResponse_advances :
  forall env st store rt rtime card d s,
    currentCard st = Some card -> deck st = Some d -> settings st = Some s ->
    let st' := fst (handleResponse env st store rt rtime) in
    currentCardIndex st' = S (currentCardIndex st)
    /\ completed (progress st') = S (completed (progress st))
    /\ sessionStats st' = updateStats (sessionStats st) rt.
Proof.
  intros env st store rt rtime card d s Hc Hd Hs. cbv zeta.
  unfold handleResponse. rewrite Hc, Hd, Hs.
  destruct (LogStorage_save store _). cbn. repeat split.
Qed.

(** C1.  The code at the failing input.  Card c1 is current at position 0
    and the store rejects writes: [LogStorage.save] answers [false], nothing
    is persisted, and after [handleResponse] the current card is c2, the
    position is 1, one card is counted as completed and one as correct. *)
Theorem advance_despite_failed_save :
  let log :=
    newStudyLog envDay5 session0 cardA deckD DEFAULT_USER_SETTINGS
      CORRECT 3000 in
  let r := handleResponse envDay5 session0 failingStore CORRECT 3000 in
  LogStorage_save failingStore log = (false, failingStore)
  /\ snd r = failingStore
  /\ currentCard session0 = Some cardA
  /\ currentCard (fst r) = Some cardB
  /\ currentCardIndex session0 = 0%nat
  /\ currentCardIndex (fst r) = 1%nat
  /\ progress (fst r) = {| completed := 1; total := 2 |}
  /\ sessionStats (fst r) = SessionStats.mk 1 0 0 0 0.
Proof. cbv zeta. repeat split. Qed.

(** C6.  When the study queue is empty (total = 0), [isSessionComplete] is
    false whatever the completed counter: the session is not reported as
    complete. *)
Theorem empty_queue_not_complete :
  forall completed0 : nat,
    isSessionComplete {| completed := completed0; total := 0 |} = false.
Proof.
  intro completed0. unfold isSessionComplete. cbn [total].
  apply andb_false_r.
Qed.

(** C6, as stated, fails: the session reset on a deck without cards has a
    queue of zero cards, no current card, and is not complete. *)
Lemma empty_session_not_complete :
  let st := resetSession day4 noShuffle emptySession in
  studyCards st = []
  /\ total (progress st) = 0%nat
  /\ currentCard st = None
  /\ isSessionComplete (progress st) <> true.
Proof. cbv zeta. repeat split. discriminate. Qed.


(** * Further properties *)

(** ** calculateNextReviewDate, continued *)


Lemma filter_idempotent {A : Type} (p : A -> bool) (l : list A) :
  filter p (filter p l) = filter p l.
Proof.
  induction l as [|x l IH]; [reflexivity|].
  cbn [filter]. destruct (p x) eqn:Hp; [|exact IH].
  cbn [filter]. rewrite Hp. now f_equal.
Qed.

(** X2.  The logs of other cards play no role: filtering [previousLogs] to
    the card beforehand, as [handleResponse] does, gives the same date as
    passing all the logs. *)
Theorem other_cards_logs_ignored :
  forall (now0 : Q) (cid : string) (rt : ResponseType)
         (previousLogs : list StudyLog) (intervals multipliers : PerResponse),
    calculateNextReviewDate now0 cid rt
      (filter (fun log => String.eqb (cardId log) cid) previousLogs)
      intervals multipliers
    = calculateNextReviewDate now0 cid rt previousLogs intervals multipliers.
Proof.
  intros. unfold calculateNextReviewDate, reviewInterval.
  now rewrite filter_idempotent.
Qed.




(** ** calculateSuccessRate, continued *)

Lemma EASE_FACTORS_range (rt : ResponseType) :
  0 <= EASE_FACTORS rt /\ EASE_FACTORS rt <= 5.
Proof. destruct rt; split; vm_compute; discriminate. Qed.

Lemma timeFactor_cases (t : Q) :
  (if Qgtb t 10000 then 9 # 10 else 1) == (9 # 10)
  \/ (if Qgtb t 10000 then 9 # 10 else 1) == 1.
Proof. destruct (Qgtb t 10000); [left | right]; reflexivity. Qed.

(** X4.  The success rate is always between 0 and 100. *)
Theorem success_rate_in_range :
  forall (rt : ResponseType) (t : Q),
    0 <= calculateSuccessRate rt t /\ calculateSuccessRate rt t <= 100.
Proof.
  intros rt t. unfold calculateSuccessRate. cbv zeta. split.
  - unfold Math_max. apply Q.le_max_l.
  - unfold Math_max, Math_min. apply Q.max_lub; [discriminate|].
    apply Q.le_min_l.
Qed.

Lemma clamp_mono (a b : Q) :
  a <= b -> Math_max 0 (Math_min 100 a) <= Math_max 0 (Math_min 100 b).
Proof.
  intro H. unfold Math_max, Math_min.
  apply Q.max_le_compat_l. apply Q.min_le_compat_l. exact H.
Qed.

(** X5.  A slower answer never scores higher: the success rate does not
    increase with the response time. *)
Theorem success_rate_antitone_in_time :
  forall (rt : ResponseType) (t1 t2 : Q),
    t1 <= t2 -> calculateSuccessRate rt t2 <= calculateSuccessRate rt t1.
Proof.
  intros rt t1 t2 H.
  rewrite !calculateSuccessRate_one_threshold. apply clamp_mono.
  destruct (EASE_FACTORS_range rt) as [Hlo _].
  assert (Hbase : 0 <= EASE_FACTORS rt / 5 * 100).
  { unfold Qdiv. apply Qmult_le_0_compat; [|discriminate].
    apply Qmult_le_0_compat; [exact Hlo | discriminate]. }
  set (b := EASE_FACTORS rt / 5 * 100) in *.
  destruct (Qgtb t2 10000) eqn:H2, (Qgtb t1 10000) eqn:H1.
  - apply Qle_refl.
  - rewrite <- (Qmult_1_r b) at 2. nra.
  - exfalso. unfold Qgtb in *. apply Qltb_lt in H1.
    assert (Ht : Qltb 10000 t2 = true) by (apply Qltb_lt; lra).
    congruence.
  - apply Qle_refl.
Qed.

Lemma success_rate_antitone_in_time_witness :
  calculateSuccessRate EASY 25000 <= calculateSuccessRate EASY 5000.
Proof.
  apply (success_rate_antitone_in_time EASY 5000 25000).
  vm_compute. discriminate.
Defined.

(** X6.  A better answer never scores lower: at the same response time the
    success rate follows the scale WRONG, AGAIN, HARD, CORRECT, EASY. *)
Theorem success_rate_monotone_in_response :
  forall (r1 r2 : ResponseType) (t : Q),
    (responseRank r1 <= responseRank r2)%nat ->
    calculateSuccessRate r1 t <= calculateSuccessRate r2 t.
Proof.
  intros r1 r2 t H.
  rewrite !calculateSuccessRate_one_threshold. apply clamp_mono.
  assert (He : EASE_FACTORS r1 <= EASE_FACTORS r2).
  { destruct r1, r2; cbn in H; try lia; vm_compute; discriminate. }
  assert (Hb : EASE_FACTORS r1 / 5 * 100 <= EASE_FACTORS r2 / 5 * 100).
  { apply Qmult_le_compat_r; [|discriminate].
    unfold Qdiv. apply Qmult_le_compat_r; [exact He | discriminate]. }
  destruct (Qgtb t 10000).
  - apply Qmult_le_compat_r; [exact Hb | discriminate].
  - apply Qmult_le_compat_r; [exact Hb | discriminate].
Qed.

Lemma success_rate_monotone_in_response_witness :
  calculateSuccessRate HARD 5000 <= calculateSuccessRate CORRECT 5000.
Proof.
  apply (success_rate_monotone_in_response HARD CORRECT 5000).
  cbn. lia.
Defined.

(** ** Sets, continued *)

Lemma NoDup_firstn {A : Type} (n : nat) (l : list A) :
  NoDup l -> NoDup (firstn n l).
Proof.
  intro H. rewrite <- (firstn_skipn n l) in H.
  now apply NoDup_app_remove_r in H.
Qed.

Lemma NoDup_snoc {A : Type} (l : list A) (x : A) :
  NoDup l -> ~ In x l -> NoDup (l ++ [x]).
Proof.
  intros Hl Hx. apply NoDup_app. repeat split.
  - exact Hl.
  - constructor; [intros [] | constructor].
  - intros a Ha [<- | []]. now apply Hx.
Qed.

Lemma Set_add_NoDup (s : JsSet) (x : string) :
  NoDup s -> NoDup (Set_add s x).
Proof.
  intro H. unfold Set_add. destruct (Set_has s x) eqn:Hhas; [exact H|].
  apply NoDup_snoc; [exact H|].
  intro Hin. apply Set_has_In in Hin. congruence.
Qed.

Lemma fold_Set_add_NoDup (xs : list string) (acc : JsSet) :
  NoDup acc -> NoDup (fold_left Set_add xs acc).
Proof.
  revert acc. induction xs as [|x xs IH]; intros acc H; cbn [fold_left].
  - exact H.
  - apply IH, Set_add_NoDup, H.
Qed.

Lemma Set_new_NoDup (xs : list string) : NoDup (Set_new xs).
Proof. apply fold_Set_add_NoDup. constructor. Qed.

Lemma Set_add_length (s : JsSet) (x : string) :
  (List.length (Set_add s x) <= S (List.length s))%nat.
Proof.
  unfold Set_add. destruct (Set_has s x); [lia|].
  rewrite length_app. cbn. lia.
Qed.

Lemma fold_Set_add_length (xs : list string) (acc : JsSet) :
  (List.length (fold_left Set_add xs acc)
   <= List.length acc + List.length xs)%nat.
Proof.
  revert acc. induction xs as [|x xs IH]; intro acc; cbn [fold_left List.length].
  - lia.
  - specialize (IH (Set_add acc x)). pose proof (Set_add_length acc x). lia.
Qed.

Lemma Set_new_length (xs : list string) :
  (List.length (Set_new xs) <= List.length xs)%nat.
Proof. unfold Set_new. pose proof (fold_Set_add_length xs []). cbn in *. lia. Qed.

Lemma Array_slice0_all {A : Type} (arr : list A) (e : Z) :
  (Z.of_nat (List.length arr) <= e)%Z -> Array_slice0 arr e = arr.
Proof.
  intro H. unfold Array_slice0. cbv zeta.
  destruct (Z.ltb_spec e 0) as [Hneg | _]; [lia|].
  apply firstn_all2. lia.
Qed.

Lemma Array_slice0_nonneg {A : Type} (arr : list A) (e : Z) :
  (0 <= e)%Z -> Array_slice0 arr e = firstn (Z.to_nat e) arr.
Proof.
  intro H. unfold Array_slice0. cbv zeta.
  destruct (Z.ltb_spec e 0) as [Hneg | _]; [lia|].
  destruct (Z.min_spec e (Z.of_nat (List.length arr))) as [[_ ->] | [Hle ->]].
  - reflexivity.
  - rewrite Nat2Z.id. rewrite firstn_all. symmetry. apply firstn_all2. lia.
Qed.

(** ** calculateTodayCards, continued *)

Lemma hasLog_spec (logs0 : list StudyLog) (cid : string) :
  hasLog logs0 cid = true <-> exists l, In l logs0 /\ cardId l = cid.
Proof.
  unfold hasLog. rewrite existsb_exists.
  split; intros [l [Hin H]]; exists l; split; try exact Hin;
    now apply String.eqb_eq.
Qed.

Lemma studied_set_hasLog (logs0 : list StudyLog) (cid : string) :
  Set_has (Set_new (map cardId logs0)) cid = hasLog logs0 cid.
Proof.
  apply eq_true_iff_eq.
  rewrite Set_has_In, Set_new_In, in_map_iff, hasLog_spec.
  split; intros [l [H1 H2]]; exists l; tauto.
Qed.

Lemma newCandidates_unlogged (logs0 : list StudyLog) (allCardIds : list string) :
  newCandidates logs0 allCardIds
  = filter (fun id0 => negb (hasLog logs0 id0)) allCardIds.
Proof.
  unfold newCandidates. apply filter_ext. intro id0.
  now rewrite studied_set_hasLog.
Qed.

(** X7.  With a non-negative cap, [newCardIds] is the first
    [newCardsPerDay] cards of [allCardIds] that have no log at all, in the
    order of [allCardIds]. *)
Theorem new_cards_first_unlogged :
  forall (d : Today) (logs0 : list StudyLog) (newCap reviewCap : Z)
         (allCardIds : list string),
    (0 <= newCap)%Z ->
    newCardIds (calculateTodayCards d logs0 newCap reviewCap allCardIds)
    = firstn (Z.to_nat newCap)
        (filter (fun id0 => negb (hasLog logs0 id0)) allCardIds).
Proof.
  intros d logs0 newCap reviewCap allCardIds H.
  cbn [calculateTodayCards newCardIds].
  rewrite (Array_slice0_nonneg _ _ H). now rewrite newCandidates_unlogged.
Qed.

Lemma new_cards_first_unlogged_witness :
  newCardIds (calculateTodayCards day4 storedLogs 1 100 ["c1"; "c2"; "c3"])
  = firstn (Z.to_nat 1)
      (filter (fun id0 => negb (hasLog storedLogs id0)) ["c1"; "c2"; "c3"]).
Proof.
  apply (new_cards_first_unlogged day4 storedLogs 1 100 ["c1"; "c2"; "c3"]).
  lia.
Defined.

(** X8.  No card is both new and due for review: an id never appears in
    both [newCardIds] and [reviewCardIds], whatever the caps. *)
Theorem new_and_review_disjoint :
  forall (d : Today) (logs0 : list StudyLog) (newCap reviewCap : Z)
         (allCardIds : list string) (cid : string),
    In cid (newCardIds
              (calculateTodayCards d logs0 newCap reviewCap allCardIds)) ->
    ~ In cid (reviewCardIds
                (calculateTodayCards d logs0 newCap reviewCap allCardIds)).
Proof.
  intros d logs0 newCap reviewCap allCardIds cid Hnew Hrev.
  cbn [calculateTodayCards newCardIds reviewCardIds] in Hnew, Hrev.
  apply In_Array_slice0 in Hnew. apply In_Array_slice0 in Hrev.
  rewrite newCandidates_unlogged in Hnew.
  apply filter_In in Hnew. destruct Hnew as [_ Hno].
  apply reviewCandidates_spec in Hrev.
  destruct Hrev as [[l [Hin [Hcid _]]] _].
  assert (Hhas : hasLog logs0 cid = true)
    by (apply hasLog_spec; now exists l).
  rewrite Hhas in Hno. discriminate Hno.
Qed.

Lemma new_and_review_disjoint_witness :
  ~ In "c2" (reviewCardIds
               (calculateTodayCards day4 storedLogs 20 100 ["c1"; "c2"])).
Proof.
  apply (new_and_review_disjoint day4 storedLogs 20 100 ["c1"; "c2"] "c2").
  cbv. left. reflexivity.
Defined.

(** X9.  [reviewCardIds] never lists a card twice, however many of its
    logs are due. *)
Theorem review_cards_distinct :
  forall (d : Today) (logs0 : list StudyLog) (newCap reviewCap : Z)
         (allCardIds : list string),
    NoDup (reviewCardIds
             (calculateTodayCards d logs0 newCap reviewCap allCardIds)).
Proof.
  intros. cbn [calculateTodayCards reviewCardIds].
  unfold Array_slice0. apply NoDup_firstn.
  unfold reviewCandidates, Array_from. apply Set_new_NoDup.
Qed.

Lemma reviewCandidates_length (d : Today) (logs0 : list StudyLog) :
  (List.length (reviewCandidates d logs0) <= List.length logs0)%nat.
Proof.
  unfold reviewCandidates, Array_from.
  eapply Nat.le_trans; [apply Set_new_length|].
  rewrite length_map.
  eapply Nat.le_trans; [apply filter_length_le|]. apply filter_length_le.
Qed.

(** X10.  When [reviewCardsPerDay] is at least the number of logs, nothing
    is cut off: a card is in [reviewCardIds] exactly when one of its logs
    has [nextReviewDate <= now] and none of its logs was recorded within
    today's window. *)
Theorem review_complete_under_large_cap :
  forall (d : Today) (logs0 : list StudyLog) (newCap reviewCap : Z)
         (allCardIds : list string) (cid : string),
    (Z.of_nat (List.length logs0) <= reviewCap)%Z ->
    (In cid (reviewCardIds
               (calculateTodayCards d logs0 newCap reviewCap allCardIds))
     <-> (exists l, In l logs0 /\ cardId l = cid /\ nextReviewDate l <= now d)
         /\ ~ answeredToday d logs0 cid).
Proof.
  intros d logs0 newCap reviewCap allCardIds cid Hcap.
  cbn [calculateTodayCards reviewCardIds].
  rewrite Array_slice0_all; [apply reviewCandidates_spec|].
  pose proof (reviewCandidates_length d logs0). lia.
Qed.

Lemma review_complete_under_large_cap_witness :
  In "c1" (reviewCardIds
             (calculateTodayCards day4 storedLogs 20 100 ["c1"; "c2"]))
  <-> (exists l,
         In l storedLogs /\ cardId l = "c1" /\ nextReviewDate l <= now day4)
      /\ ~ answeredToday day4 storedLogs "c1".
Proof.
  apply (review_complete_under_large_cap day4 storedLogs 20 100
           ["c1"; "c2"] "c1").
  cbn. lia.
Defined.

Lemma reviewCardIds_only_due :
  forall (d : Today) (logs0 : list StudyLog) (newCap reviewCap : Z)
         (allCardIds : list string) (cid : string),
    In cid (reviewCardIds
              (calculateTodayCards d logs0 newCap reviewCap allCardIds)) ->
    (exists l, In l logs0 /\ cardId l = cid /\ nextReviewDate l <= now d)
    /\ ~ answeredToday d logs0 cid.
Proof.
  intros d logs0 newCap reviewCap allCardIds cid Hin.
  cbn [calculateTodayCards reviewCardIds] in Hin.
  apply In_Array_slice0 in Hin. now apply reviewCandidates_spec.
Qed.

(** X11.  A card answered today is out of today's queue: if some log of
    the card was recorded within today's window, the card is neither in
    [newCardIds] nor in [reviewCardIds]. *)
Theorem answered_today_not_queued :
  forall (d : Today) (logs0 : list StudyLog) (newCap reviewCap : Z)
         (allCardIds : list string) (l : StudyLog),
    In l logs0 ->
    todayStart d <= studiedAt l -> studiedAt l < tomorrowStart d ->
    let today := calculateTodayCards d logs0 newCap reviewCap allCardIds in
    ~ In (cardId l) (newCardIds today)
    /\ ~ In (cardId l) (reviewCardIds today).
Proof.
  intros d logs0 newCap reviewCap allCardIds l Hin Hlo Hhi today.
  subst today. split; intro H.
  - cbn [calculateTodayCards newCardIds] in H.
    apply In_Array_slice0 in H. rewrite newCandidates_unlogged in H.
    apply filter_In in H. destruct H as [_ Hno].
    assert (Hhas : hasLog logs0 (cardId l) = true)
      by (apply hasLog_spec; now exists l).
    rewrite Hhas in Hno. discriminate Hno.
  - apply reviewCardIds_only_due in H. destruct H as [_ Hnot].
    apply Hnot. exists l. repeat split; assumption.
Qed.

Lemma answered_today_not_queued_witness :
  let today :=
    calculateTodayCards day4 (storedLogs ++ [logToday]) 20 100 ["c1"; "c2"] in
  ~ In "c1" (newCardIds today) /\ ~ In "c1" (reviewCardIds today).
Proof.
  apply (answered_today_not_queued day4 (storedLogs ++ [logToday]) 20 100
           ["c1"; "c2"] logToday).
  - cbn. right. right. left. reflexivity.
  - vm_compute. discriminate.
  - vm_compute. reflexivity.
Defined.

(** ** LogStorage *)

(** X12.  A saved log is read back last: on a store that can be read and
    written, [save] answers [true] and [getAll] then returns the logs it
    returned before followed by the new log. *)
Theorem saved_log_read_back_last :
  forall (s : AsyncStorage) (log : StudyLog),
    readable s = true -> writable s = true ->
    fst (LogStorage_save s log) = true
    /\ LogStorage_getAll (snd (LogStorage_save s log))
       = LogStorage_getAll s ++ [log].
Proof. intros s log Hr Hw. now apply LogStorage_save_appends. Qed.

Lemma saved_log_read_back_last_witness :
  fst (LogStorage_save workingStore logToday) = true
  /\ LogStorage_getAll (snd (LogStorage_save workingStore logToday))
     = LogStorage_getAll workingStore ++ [logToday].
Proof.
  apply (saved_log_read_back_last workingStore logToday); reflexivity.
Defined.

(** X13.  [save] answers whether the write went through: [true] with the
    store then holding the logs read before followed by the new log,
    [false] with the store exactly as it was; it never throws. *)
Theorem save_reports_the_write :
  forall (s : AsyncStorage) (log : StudyLog),
    fst (LogStorage_save s log) = writable s
    /\ snd (LogStorage_save s log)
       = if writable s
         then {| eigo_study_logs := Some (LogStorage_getAll s ++ [log]);
                 readable := readable s;
                 writable := writable s |}
         else s.
Proof.
  intros s log. unfold LogStorage_save, AsyncStorage_setItem.
  destruct (writable s); split; reflexivity.
Qed.

(** X14.  A failed read costs the history: when the read inside [save] is
    rejected and the write goes through, [save] answers [true] and the
    store holds the new log alone, whatever it held before. *)
Theorem save_after_failed_read_drops_history :
  forall (s : AsyncStorage) (log : StudyLog),
    readable s = false -> writable s = true ->
    fst (LogStorage_save s log) = true
    /\ eigo_study_logs (snd (LogStorage_save s log)) = Some [log].
Proof.
  intros s log Hr Hw.
  unfold LogStorage_save, AsyncStorage_setItem, LogStorage_getAll,
    AsyncStorage_getItem.
  rewrite Hr, Hw. split; reflexivity.
Qed.

Lemma save_after_failed_read_drops_history_witness :
  eigo_study_logs unreadableStore = Some [logOld; logNew]
  /\ fst (LogStorage_save unreadableStore logToday) = true
  /\ eigo_study_logs (snd (LogStorage_save unreadableStore logToday))
     = Some [logToday].
Proof.
  split; [reflexivity|].
  apply (save_after_failed_read_drops_history unreadableStore logToday);
    reflexivity.
Defined.

(** *** Sorting *)

Section Sorting.

Context {A : Type}.
Variable compare : A -> A -> Q.

Lemma Array_sort_insert_perm (x : A) (l : list A) :
  Permutation (x :: l) (Array_sort_insert compare x l).
Proof.
  induction l as [|y l IH]; cbn [Array_sort_insert].
  - apply Permutation_refl.
  - destruct (Qle_bool (compare x y) 0).
    + apply Permutation_refl.
    + eapply perm_trans; [apply perm_swap|]. now apply perm_skip.
Qed.

Lemma Array_sort_perm (l : list A) : Permutation l (Array_sort compare l).
Proof.
  induction l as [|x l IH]; cbn [Array_sort fold_right].
  - apply perm_nil.
  - eapply perm_trans; [apply perm_skip, IH|].
    apply Array_sort_insert_perm.
Qed.

End Sorting.

Lemma newestFirst_insert (x : StudyLog) (l : list StudyLog) :
  newestFirst l -> newestFirst (Array_sort_insert byStudiedAtDesc x l).
Proof.
  induction l as [|y l IH]; intro H; cbn [Array_sort_insert].
  - cbn. split; [intros l' []|exact I].
  - destruct H as [Hy Hl].
    destruct (Qle_bool (byStudiedAtDesc x y) 0) eqn:Hc.
    + apply Qle_bool_iff in Hc. unfold byStudiedAtDesc in Hc.
      split; [|split; assumption].
      intros l' [<- | Hin]; [lra|].
      specialize (Hy l' Hin). lra.
    + assert (Hlt : studiedAt x < studiedAt y).
      { apply Qnot_le_lt. intro Hle.
        assert (Ht : Qle_bool (byStudiedAtDesc x y) 0 = true)
          by (apply Qle_bool_iff; unfold byStudiedAtDesc; lra).
        congruence. }
      split; [|now apply IH].
      intros l' Hin.
      apply (Permutation_in _
               (Permutation_sym (Array_sort_insert_perm byStudiedAtDesc x l)))
        in Hin.
      destruct Hin as [<- | Hin]; [lra | now apply Hy].
Qed.

Lemma newestFirst_sort (l : list StudyLog) :
  newestFirst (Array_sort byStudiedAtDesc l).
Proof.
  induction l as [|x l IH]; cbn [Array_sort fold_right].
  - exact I.
  - apply newestFirst_insert, IH.
Qed.

Lemma getByCardId_perm_sorted :
  forall (s : AsyncStorage) (cid : string),
    Permutation
      (filter (fun log => String.eqb (cardId log) cid) (LogStorage_getAll s))
      (LogStorage_getByCardId s cid)
    /\ newestFirst (LogStorage_getByCardId s cid).
Proof.
  intros s cid. unfold LogStorage_getByCardId. cbv zeta. split.
  - apply Array_sort_perm.
  - apply newestFirst_sort.
Qed.

(** X15.  [getByCardId] returns the stored logs of the card, each as often
    as it is stored, most recent first. *)
Theorem getByCardId_sorted_logs_of_card :
  forall (s : AsyncStorage) (cid : string),
    Permutation
      (filter (fun log => String.eqb (cardId log) cid) (LogStorage_getAll s))
      (LogStorage_getByCardId s cid)
    /\ newestFirst (LogStorage_getByCardId s cid).
Proof.
  intros s cid. unfold LogStorage_getByCardId. cbv zeta. split.
  - apply Array_sort_perm.
  - apply newestFirst_sort.
Qed.

(** X16.  The same for [getByDeckId], with the logs of the deck. *)
Theorem getByDeckId_sorted_logs_of_deck :
  forall (s : AsyncStorage) (did : string),
    Permutation
      (filter (fun log => String.eqb (deckId log) did) (LogStorage_getAll s))
      (LogStorage_getByDeckId s did)
    /\ newestFirst (LogStorage_getByDeckId s did).
Proof.
  intros s did. unfold LogStorage_getByDeckId. cbv zeta. split.
  - apply Array_sort_perm.
  - apply newestFirst_sort.
Qed.

(** X17.  The first log [getByCardId] returns is the most recent log of
    the card in the store; and [calculateNextReviewDate], given the result
    of [getByCardId], takes that log for [lastLog]: the previous interval,
    the scheduled date and the streak it computes with are those of the
    most recent log and of the logs behind it. *)
Theorem getByCardId_head_most_recent :
  forall (s : AsyncStorage) (cid : string) (l : StudyLog)
         (rest : list StudyLog),
    LogStorage_getByCardId s cid = l :: rest ->
    mostRecentLog (LogStorage_getAll s) cid l
    /\ forall (now0 : Q) (rt : ResponseType)
              (intervals multipliers : PerResponse),
         calculateNextReviewDate now0 cid rt (LogStorage_getByCardId s cid)
           intervals multipliers
         = now0
           + Math_min
               (if ResponseType_eqb rt WRONG
                then intervals WRONG
                else Math_max
                       ((nextReviewDate l - studiedAt l)
                        * adjustMultiplier now0 rt l (l :: rest) multipliers)
                       (intervals rt))
               MAX_INTERVAL.
Proof.
  intros s cid l rest Heq.
  destruct (getByCardId_perm_sorted s cid) as [Hperm Hsorted].
  rewrite Heq in Hperm, Hsorted.
  assert (Hall : forall l', In l' (l :: rest) ->
                            In l' (LogStorage_getAll s) /\ cardId l' = cid).
  { intros l' Hin.
    apply (Permutation_in _ (Permutation_sym Hperm)) in Hin.
    apply filter_In in Hin. destruct Hin as [Hin Hc].
    apply String.eqb_eq in Hc. now split. }
  split.
  - repeat split.
    + apply (Hall l). now left.
    + apply (Hall l). now left.
    + intros l' Hin Hc.
      assert (Hin' : In l' (l :: rest)).
      { apply (Permutation_in _ Hperm). apply filter_In.
        split; [exact Hin | now apply String.eqb_eq]. }
      destruct Hin' as [<- | Hin']; [apply Qle_refl|].
      destruct Hsorted as [Hmax _]. now apply Hmax.
  - intros now0 rt intervals multipliers. rewrite Heq.
    assert (Hf : filter (fun log => String.eqb (cardId log) cid) (l :: rest)
                 = l :: rest).
    { clear Hperm Hsorted Heq.
      assert (Hcid : forall l', In l' (l :: rest) -> cardId l' = cid)
        by (intros l' Hin; now apply Hall).
      clear Hall. revert Hcid. generalize (l :: rest) as ls.
      induction ls as [|y ls IH]; intro Hcid; [reflexivity|].
      cbn [filter].
      rewrite (proj2 (String.eqb_eq _ _) (Hcid y (or_introl eq_refl))).
      f_equal. apply IH. intros l' Hin. apply Hcid. now right. }
    unfold calculateNextReviewDate, reviewInterval. rewrite Hf. reflexivity.
Qed.

Lemma getByCardId_head_most_recent_witness :
  mostRecentLog (LogStorage_getAll workingStore) "c1" logNew
  /\ calculateNextReviewDate (day 5) "c1" CORRECT
       (LogStorage_getByCardId workingStore "c1")
       DEFAULT_INTERVALS DEFAULT_MULTIPLIERS
     == day 5 + (66 # 10) * day 1.
Proof.
  destruct (getByCardId_head_most_recent workingStore "c1" logNew [logOld]
              eq_refl) as [Hrecent Hcalc].
  split; [exact Hrecent|].
  rewrite Hcalc. vm_compute. reflexivity.
Defined.

(** X18.  [getToday] and the window of [calculateTodayCards] agree on
    whole-millisecond timestamps when the day has 24 hours: a stored log
    is returned by [getToday] exactly when [calculateTodayCards] counts it
    as studied today. *)
Theorem getToday_matches_selection_window :
  forall (d : Today) (s : AsyncStorage) (l : StudyLog) (t t0 : Z),
    studiedAt l == inject_Z t ->
    todayStart d == inject_Z t0 ->
    tomorrowStart d == todayStart d + 24 * 60 * 60 * 1000 ->
    (In l (LogStorage_getToday d s)
     <-> In l (LogStorage_getAll s) /\ studiedToday d l = true).
Proof.
  intros d s l t t0 Ht Ht0 Htom.
  unfold LogStorage_getToday, LogStorage_getByDateRange. cbv zeta.
  rewrite filter_In, andb_true_iff, !Qle_bool_iff, studiedToday_spec.
  assert (Hint :
    inject_Z t <= inject_Z t0 + 24 * 60 * 60 * 1000 - 1
    <-> inject_Z t < inject_Z t0 + 24 * 60 * 60 * 1000).
  { change (24 * 60 * 60 * 1000) with (inject_Z 86400000).
    change 1 with (inject_Z 1).
    rewrite <- inject_Z_plus. unfold Qminus.
    rewrite <- inject_Z_opp, <- inject_Z_plus.
    rewrite <- Zle_Qle, <- Zlt_Qlt. lia. }
  rewrite Htom, Ht, Ht0. rewrite Hint. tauto.
Qed.

Lemma getToday_matches_selection_window_witness :
  In logToday (LogStorage_getToday day4
                 (snd (LogStorage_save workingStore logToday)))
  <-> In logToday
        (LogStorage_getAll (snd (LogStorage_save workingStore logToday)))
      /\ studiedToday day4 logToday = true.
Proof.
  apply (getToday_matches_selection_window day4
           (snd (LogStorage_save workingStore logToday)) logToday
           (4 * 86400000 + 3600000) (4 * 86400000));
    vm_compute; reflexivity.
Defined.

(** ** DeckStorage and CardStorage *)

Section CrudFacts.

Context {A : Type}.
Variable getId : A -> string.
Variable touch : Q -> A -> A.
Variable create : Q -> A -> A.
Hypothesis touch_id : forall t x, getId (touch t x) = getId x.
Hypothesis create_id : forall t x, getId (create t x) = getId x.

Local Abbreviation hasId := (idIs getId).

Lemma findIndex_None (id0 : string) (l : list A) :
  Array_findIndex (hasId id0) l = None <-> ~ In id0 (map getId l).
Proof.
  induction l as [|y l IH]; cbn [Array_findIndex map In].
  - tauto.
  - unfold idIs at 1. destruct (String.eqb_spec (getId y) id0) as [He | Hne].
    + split; [discriminate | intros H; exfalso; apply H; now left].
    + destruct (Array_findIndex (hasId id0) l).
      * split; [discriminate|]. intro H. exfalso.
        destruct IH as [_ IH].
        assert (Hn : ~ In id0 (map getId l)) by tauto.
        specialize (IH Hn). discriminate IH.
      * split; [|reflexivity]. intros _ [H | H]; [congruence|].
        now apply (proj1 IH).
Qed.

Lemma find_None (id0 : string) (l : list A) :
  find (hasId id0) l = None <-> ~ In id0 (map getId l).
Proof.
  induction l as [|y l IH]; cbn [find map In].
  - tauto.
  - unfold idIs at 1. destruct (String.eqb_spec (getId y) id0) as [He | Hne].
    + split; [discriminate | intros H; exfalso; apply H; now left].
    + rewrite IH. tauto.
Qed.

Lemma find_set_same (x v : A) (l : list A) (i : nat) :
  getId v = getId x ->
  Array_findIndex (hasId (getId x)) l = Some i ->
  find (hasId (getId x)) (Array_set l i v) = Some v.
Proof.
  intro Hv. revert i. induction l as [|y l IH]; intros i H;
    cbn [Array_findIndex] in H; [discriminate|].
  destruct (hasId (getId x) y) eqn:Hy.
  - injection H as <-. cbn [Array_set find].
    unfold idIs. rewrite Hv, String.eqb_refl. reflexivity.
  - destruct (Array_findIndex (hasId (getId x)) l) as [j|]; [|discriminate].
    injection H as <-. cbn [Array_set find]. rewrite Hy. now apply IH.
Qed.

Lemma find_set_other (x v : A) (id0 : string) (l : list A) (i : nat) :
  getId v = getId x -> id0 <> getId x ->
  Array_findIndex (hasId (getId x)) l = Some i ->
  find (hasId id0) (Array_set l i v) = find (hasId id0) l.
Proof.
  intros Hv Hne. revert i. induction l as [|y l IH]; intros i H;
    cbn [Array_findIndex] in H; [discriminate|].
  destruct (hasId (getId x) y) eqn:Hy.
  - injection H as <-. cbn [Array_set find].
    unfold idIs in *. apply String.eqb_eq in Hy.
    rewrite Hv, Hy.
    destruct (String.eqb_spec (getId x) id0); [congruence | reflexivity].
  - destruct (Array_findIndex (hasId (getId x)) l) as [j|]; [|discriminate].
    injection H as <-. cbn [Array_set find].
    destruct (hasId id0 y); [reflexivity | now apply IH].
Qed.

Lemma map_id_set (x v : A) (l : list A) (i : nat) :
  getId v = getId x ->
  Array_findIndex (hasId (getId x)) l = Some i ->
  map getId (Array_set l i v) = map getId l.
Proof.
  intro Hv. revert i. induction l as [|y l IH]; intros i H;
    cbn [Array_findIndex] in H; [discriminate|].
  destruct (hasId (getId x) y) eqn:Hy.
  - injection H as <-. cbn [Array_set map].
    unfold idIs in Hy. apply String.eqb_eq in Hy. congruence.
  - destruct (Array_findIndex (hasId (getId x)) l) as [j|]; [|discriminate].
    injection H as <-. cbn [Array_set map]. f_equal. now apply IH.
Qed.

Lemma find_app_miss (id0 : string) (l : list A) (v : A) :
  find (hasId id0) l = None ->
  find (hasId id0) (l ++ [v]) = if hasId id0 v then Some v else None.
Proof.
  induction l as [|y l IH]; cbn [find app]; [reflexivity|].
  destruct (hasId id0 y); [discriminate | exact IH].
Qed.

Lemma find_app_hit (id0 : string) (l : list A) (v y : A) :
  find (hasId id0) l = Some y -> find (hasId id0) (l ++ [v]) = Some y.
Proof.
  induction l as [|z l IH]; cbn [find app]; [discriminate|].
  destruct (hasId id0 z); [trivial | exact IH].
Qed.

Local Abbreviation savedItems := (Crud_savedItems getId touch create).

Lemma Crud_save_ok (now0 : Q) (s : KeyStore A) (x : A) :
  canRead s = true -> canWrite s = true ->
  fst (Crud_save getId touch create now0 s x) = true
  /\ Crud_getAll (snd (Crud_save getId touch create now0 s x))
     = savedItems now0 (Crud_getAll s) x.
Proof.
  intros Hr Hw. unfold Crud_save, KeyStore_setItem. cbv zeta. rewrite Hw.
  cbn [fst snd]. split; [reflexivity|].
  unfold Crud_getAll at 1, KeyStore_getItem. cbn [canRead stored].
  rewrite Hr. reflexivity.
Qed.

Lemma savedItems_find_same (now0 : Q) (items : list A) (x : A) :
  find (hasId (getId x)) (savedItems now0 items x)
  = match find (hasId (getId x)) items with
    | Some _ => Some (touch now0 x)
    | None => Some (create now0 x)
    end.
Proof.
  unfold Crud_savedItems.
  destruct (Array_findIndex (hasId (getId x)) items) as [i|] eqn:Hi.
  - rewrite (find_set_same x _ items i (touch_id _ _) Hi).
    destruct (find (hasId (getId x)) items) eqn:Hf; [reflexivity|].
    apply find_None in Hf. apply findIndex_None in Hf. congruence.
  - apply findIndex_None in Hi. apply find_None in Hi.
    rewrite (find_app_miss _ _ _ Hi), Hi.
    unfold idIs. now rewrite create_id, String.eqb_refl.
Qed.

Lemma savedItems_find_other (now0 : Q) (items : list A) (x : A) (id0 : string) :
  id0 <> getId x ->
  find (hasId id0) (savedItems now0 items x) = find (hasId id0) items.
Proof.
  intro Hne. unfold Crud_savedItems.
  destruct (Array_findIndex (hasId (getId x)) items) as [i|] eqn:Hi.
  - exact (find_set_other x _ id0 items i (touch_id _ _) Hne Hi).
  - destruct (find (hasId id0) items) as [y|] eqn:Hf.
    + now apply find_app_hit.
    + rewrite (find_app_miss _ _ _ Hf). unfold idIs.
      rewrite create_id.
      destruct (String.eqb_spec (getId x) id0); [congruence | reflexivity].
Qed.

Lemma savedItems_ids (now0 : Q) (items : list A) (x : A) :
  map getId (savedItems now0 items x)
  = if existsb (String.eqb (getId x)) (map getId items)
    then map getId items
    else map getId items ++ [getId x].
Proof.
  unfold Crud_savedItems.
  destruct (Array_findIndex (hasId (getId x)) items) as [i|] eqn:Hi.
  - rewrite (map_id_set x _ items i (touch_id _ _) Hi).
    destruct (existsb _ (map getId items)) eqn:He; [reflexivity|].
    exfalso.
    assert (Hin : In (getId x) (map getId items)).
    { destruct (in_dec string_dec (getId x) (map getId items)) as [H | H];
        [exact H|].
      apply findIndex_None in H. congruence. }
    assert (Ht : existsb (String.eqb (getId x)) (map getId items) = true).
    { apply existsb_exists. exists (getId x).
      split; [exact Hin | apply String.eqb_refl]. }
    congruence.
  - apply findIndex_None in Hi.
    destruct (existsb _ (map getId items)) eqn:He.
    + exfalso. apply existsb_exists in He. destruct He as [y [Hin Hy]].
      apply String.eqb_eq in Hy. subst y. now apply Hi.
    + rewrite map_app. cbn [map]. now rewrite create_id.
Qed.

Lemma savedItems_NoDup (now0 : Q) (items : list A) (x : A) :
  NoDup (map getId items) -> NoDup (map getId (savedItems now0 items x)).
Proof.
  intro H. rewrite savedItems_ids.
  destruct (existsb _ (map getId items)) eqn:He; [exact H|].
  apply NoDup_snoc; [exact H|]. intro Hin.
  assert (Ht : existsb (String.eqb (getId x)) (map getId items) = true).
  { apply existsb_exists. exists (getId x).
    split; [exact Hin | apply String.eqb_refl]. }
  congruence.
Qed.

Lemma filter_other_find (id0 id1 : string) (l : list A) :
  id1 <> id0 ->
  find (hasId id1) (filter (fun x => negb (String.eqb (getId x) id0)) l)
  = find (hasId id1) l.
Proof.
  intro Hne. induction l as [|y l IH]; [reflexivity|].
  cbn [filter find].
  destruct (String.eqb_spec (getId y) id0) as [He | Hn]; cbn [negb].
  - unfold idIs at 2.
    destruct (String.eqb_spec (getId y) id1); [congruence | exact IH].
  - cbn [find]. destruct (hasId id1 y); [reflexivity | exact IH].
Qed.

Lemma filter_same_find (id0 : string) (l : list A) :
  find (hasId id0) (filter (fun x => negb (String.eqb (getId x) id0)) l)
  = None.
Proof.
  apply find_None. intro Hin. apply in_map_iff in Hin.
  destruct Hin as [y [Hy Hin]]. apply filter_In in Hin.
  destruct Hin as [_ Hb]. rewrite Hy, String.eqb_refl in Hb. discriminate Hb.
Qed.

Lemma filter_absent_all (id0 : string) (l : list A) :
  ~ In id0 (map getId l) ->
  filter (fun x => negb (String.eqb (getId x) id0)) l = l.
Proof.
  induction l as [|y l IH]; intro H; [reflexivity|].
  cbn [filter]. cbn [map In] in H.
  destruct (String.eqb_spec (getId y) id0) as [He | Hn]; [tauto|].
  cbn [negb]. f_equal. apply IH. tauto.
Qed.

Lemma filter_present_shorter (id0 : string) (l : list A) :
  In id0 (map getId l) ->
  (List.length (filter (fun x => negb (String.eqb (getId x) id0)) l)
   < List.length l)%nat.
Proof.
  induction l as [|y l IH]; intro H; [destruct H|].
  cbn [filter List.length]. cbn [map In] in H.
  destruct (String.eqb_spec (getId y) id0) as [He | Hn]; cbn [negb].
  - pose proof (filter_length_le
                  (fun x => negb (String.eqb (getId x) id0)) l). lia.
  - cbn [List.length]. destruct H as [H | H]; [congruence|].
    specialize (IH H). lia.
Qed.

Lemma Crud_remove_absent (s : KeyStore A) (id0 : string) :
  Crud_getById getId s id0 = None ->
  Crud_remove getId s id0 = (false, s).
Proof.
  intro H. unfold Crud_getById in H. apply find_None in H.
  unfold Crud_remove. cbv zeta. rewrite (filter_absent_all _ _ H).
  now rewrite Nat.eqb_refl.
Qed.

Lemma Crud_remove_present (s : KeyStore A) (id0 : string) :
  canRead s = true -> canWrite s = true ->
  Crud_getById getId s id0 <> None ->
  fst (Crud_remove getId s id0) = true
  /\ Crud_getById getId (snd (Crud_remove getId s id0)) id0 = None
  /\ forall id1, id1 <> id0 ->
       Crud_getById getId (snd (Crud_remove getId s id0)) id1
       = Crud_getById getId s id1.
Proof.
  intros Hr Hw H. unfold Crud_getById in H.
  assert (Hin : In id0 (map getId (Crud_getAll s))).
  { destruct (in_dec string_dec id0 (map getId (Crud_getAll s)))
      as [Hi | Hi]; [exact Hi|].
    apply find_None in Hi. contradiction. }
  pose proof (filter_present_shorter _ _ Hin) as Hlt.
  unfold Crud_remove. cbv zeta.
  destruct (Nat.eqb_spec
              (List.length
                 (filter (fun x => negb (String.eqb (getId x) id0))
                    (Crud_getAll s)))
              (List.length (Crud_getAll s))) as [He | _]; [lia|].
  unfold KeyStore_setItem. rewrite Hw. cbn [fst snd].
  split; [reflexivity|].
  unfold Crud_getById, Crud_getAll at 1 3, KeyStore_getItem.
  cbn [canRead stored]. rewrite Hr.
  split; [apply filter_same_find|].
  intros id1 Hne. now apply filter_other_find.
Qed.

End CrudFacts.

(** X19.  [DeckStorage.save] and [CardStorage.save], on a store that can be
    read and written: [save] answers [true]; [getById] of the saved id then
    returns the saved object, stamped [updatedAt = now] if the id was there
    before and [createdAt = updatedAt = now] if it was new; and [getById]
    of every other id returns what it returned before. *)
Theorem save_then_getById :
  forall {A : Type} (getId : A -> string) (touch create : Q -> A -> A),
    (forall t x, getId (touch t x) = getId x) ->
    (forall t x, getId (create t x) = getId x) ->
    forall (now0 : Q) (s : KeyStore A) (x : A),
      canRead s = true -> canWrite s = true ->
      let s' := snd (Crud_save getId touch create now0 s x) in
      fst (Crud_save getId touch create now0 s x) = true
      /\ Crud_getById getId s' (getId x)
         = match Crud_getById getId s (getId x) with
           | Some _ => Some (touch now0 x)
           | None => Some (create now0 x)
           end
      /\ forall id0, id0 <> getId x ->
           Crud_getById getId s' id0 = Crud_getById getId s id0.
Proof.
  intros A getId touch create Ht Hc now0 s x Hr Hw s'. subst s'.
  destruct (Crud_save_ok getId touch create now0 s x Hr Hw) as [Hok Hall].
  split; [exact Hok|]. unfold Crud_getById. rewrite Hall. split.
  - apply (savedItems_find_same getId touch create Ht Hc).
  - intros id0 Hne.
    now apply (savedItems_find_other getId touch create Ht Hc).
Qed.

Lemma save_then_getById_witness :
  let renamed := DeckEntry.mk "d1" "basics" None ["c1"] (day 0) (day 0) in
  let s' := snd (DeckStorage_save (day 5) deckStore0 renamed) in
  fst (DeckStorage_save (day 5) deckStore0 renamed) = true
  /\ DeckStorage_getById s' "d1"
     = Some (DeckEntry.mk "d1" "basics" None ["c1"] (day 0) (day 5))
  /\ DeckStorage_getById s' "d2" = Some deckEntryE.
Proof.
  cbv zeta.
  destruct (save_then_getById DeckEntry.id DeckEntry.touch DeckEntry.create
              (fun _ _ => eq_refl) (fun _ _ => eq_refl)
              (day 5) deckStore0
              (DeckEntry.mk "d1" "basics" None ["c1"] (day 0) (day 0))
              eq_refl eq_refl)
    as [Hok [Hsame Hother]].
  split; [exact Hok|]. split; [exact Hsame|].
  apply (Hother "d2"). discriminate.
Defined.

(** X20.  [save] keeps the ids of the store distinct: if no two stored
    objects share an id before [DeckStorage.save] or [CardStorage.save],
    none do after; an update leaves the number of objects as it is and a
    new id adds one. *)
Theorem save_keeps_ids_distinct :
  forall {A : Type} (getId : A -> string) (touch create : Q -> A -> A),
    (forall t x, getId (touch t x) = getId x) ->
    (forall t x, getId (create t x) = getId x) ->
    forall (now0 : Q) (s : KeyStore A) (x : A),
      canRead s = true -> canWrite s = true ->
      NoDup (map getId (Crud_getAll s)) ->
      let s' := snd (Crud_save getId touch create now0 s x) in
      NoDup (map getId (Crud_getAll s'))
      /\ List.length (Crud_getAll s')
         = match Crud_getById getId s (getId x) with
           | Some _ => List.length (Crud_getAll s)
           | None => S (List.length (Crud_getAll s))
           end.
Proof.
  intros A getId touch create Ht Hc now0 s x Hr Hw Hnd s'. subst s'.
  destruct (Crud_save_ok getId touch create now0 s x Hr Hw) as [_ Hall].
  rewrite Hall. split.
  - now apply (savedItems_NoDup getId touch create Ht Hc).
  - rewrite <- (length_map getId (Crud_savedItems _ _ _ _ _ _)).
    rewrite (savedItems_ids getId touch create Ht Hc).
    unfold Crud_getById.
    destruct (find (idIs getId (getId x)) (Crud_getAll s)) eqn:Hf.
    + assert (Hin : In (getId x) (map getId (Crud_getAll s))).
      { destruct (in_dec string_dec (getId x) (map getId (Crud_getAll s)))
          as [H | H]; [exact H|].
        apply (find_None getId) in H. unfold idIs in *. congruence. }
      assert (He : existsb (String.eqb (getId x)) (map getId (Crud_getAll s))
                   = true).
      { apply existsb_exists. exists (getId x).
        split; [exact Hin | apply String.eqb_refl]. }
      change (find (fun x0 => String.eqb (getId x0) (getId x)) (Crud_getAll s))
        with (find (idIs getId (getId x)) (Crud_getAll s)).
      rewrite Hf, He. apply length_map.
    + change (find (fun x0 => String.eqb (getId x0) (getId x)) (Crud_getAll s))
        with (find (idIs getId (getId x)) (Crud_getAll s)).
      rewrite Hf. apply (find_None getId) in Hf.
      destruct (existsb _ (map getId (Crud_getAll s))) eqn:He.
      * exfalso. apply existsb_exists in He. destruct He as [y [Hin Hy]].
        apply String.eqb_eq in Hy. subst y. now apply Hf.
      * rewrite length_app, length_map. cbn. lia.
Qed.

Lemma save_keeps_ids_distinct_witness :
  let s' := snd (CardStorage_save (day 5) cardStore0
                   (CardEntry.mk "c4" "dog" 0 0)) in
  NoDup (map CardEntry.id (CardStorage_getAll s'))
  /\ List.length (CardStorage_getAll s') = 4%nat.
Proof.
  apply (save_keeps_ids_distinct CardEntry.id CardEntry.touch CardEntry.create
           (fun _ _ => eq_refl) (fun _ _ => eq_refl)
           (day 5) cardStore0 (CardEntry.mk "c4" "dog" 0 0) eq_refl eq_refl).
  repeat constructor; cbn; intuition discriminate.
Defined.

(** X21.  Removing an id the store does not have changes nothing:
    [DeckStorage.remove] and [CardStorage.remove] answer [false] and leave
    the store as it was. *)
Theorem remove_absent_id :
  forall {A : Type} (getId : A -> string) (s : KeyStore A) (id0 : string),
    Crud_getById getId s id0 = None ->
    Crud_remove getId s id0 = (false, s).
Proof. intros A getId s id0 H. now apply Crud_remove_absent. Qed.

Lemma remove_absent_id_witness :
  DeckStorage_remove deckStore0 "d9" = (false, deckStore0).
Proof.
  apply (remove_absent_id DeckEntry.id deckStore0 "d9"). reflexivity.
Defined.

(** X22.  Removing an id the store has, on a store that can be read and
    written: [remove] answers [true], [getById] of that id then returns
    null, and [getById] of every other id returns what it returned
    before. *)
Theorem remove_present_id :
  forall {A : Type} (getId : A -> string) (s : KeyStore A) (id0 : string),
    canRead s = true -> canWrite s = true ->
    Crud_getById getId s id0 <> None ->
    let s' := snd (Crud_remove getId s id0) in
    fst (Crud_remove getId s id0) = true
    /\ Crud_getById getId s' id0 = None
    /\ forall id1, id1 <> id0 ->
         Crud_getById getId s' id1 = Crud_getById getId s id1.
Proof.
  intros A getId s id0 Hr Hw H s'. subst s'.
  now apply Crud_remove_present.
Qed.

Lemma remove_present_id_witness :
  let s' := snd (CardStorage_remove cardStore0 "c2") in
  fst (CardStorage_remove cardStore0 "c2") = true
  /\ CardStorage_getById s' "c2" = None
  /\ CardStorage_getById s' "c3" = Some cardEntryC.
Proof.
  cbv zeta.
  destruct (remove_present_id CardEntry.id cardStore0 "c2" eq_refl eq_refl)
    as [Hok [Hgone Hother]].
  - discriminate.
  - split; [exact Hok|]. split; [exact Hgone|].
    apply (Hother "c3"). discriminate.
Defined.

(** *** Decks and their cards *)

Lemma DeckStorage_save_getById (now0 : Q) (s : DeckStore) (x : DeckEntry.t) :
  canRead s = true -> canWrite s = true ->
  fst (DeckStorage_save now0 s x) = true
  /\ DeckStorage_getById (snd (DeckStorage_save now0 s x)) (DeckEntry.id x)
     = match Crud_getById DeckEntry.id s (DeckEntry.id x) with
       | Some _ => Some (DeckEntry.touch now0 x)
       | None => Some (DeckEntry.create now0 x)
       end.
Proof.
  intros Hr Hw. unfold DeckStorage_save, DeckStorage_getById.
  destruct (Crud_save_ok DeckEntry.id DeckEntry.touch DeckEntry.create
              now0 s x Hr Hw) as [Hok Hall].
  split; [exact Hok|].
  unfold Crud_getById, DeckStore in *. rewrite Hall.
  apply (savedItems_find_same DeckEntry.id DeckEntry.touch DeckEntry.create);
    reflexivity.
Qed.

Lemma DeckStorage_getById_id (s : DeckStore) (did : string) (deck0 : DeckEntry.t) :
  DeckStorage_getById s did = Some deck0 -> DeckEntry.id deck0 = did.
Proof.
  intro H. unfold DeckStorage_getById, Crud_getById in H.
  apply find_some in H. destruct H as [_ H]. now apply String.eqb_eq.
Qed.

Lemma Set_has_includes (xs : list string) (x : string) :
  Set_has (Set_new xs) x = Array_includes xs x.
Proof.
  apply eq_true_iff_eq. rewrite Set_has_In, Set_new_In.
  unfold Array_includes. rewrite existsb_exists. split.
  - intro H. exists x. split; [exact H | apply String.eqb_refl].
  - intros [y [Hin Hy]]. apply String.eqb_eq in Hy. now subst.
Qed.

(** X23.  [DeckStorage.addCards] on a deck of the store, with a store that
    can be read and written: it answers [true]; afterwards the deck lists
    exactly its former cards and the added ones, none of them twice (even
    if the argument or the former list repeats an id); its other fields are
    kept and [updatedAt] is the clock of the inner [save]. *)
Theorem addCards_unions_card_ids :
  forall (now1 now2 : Q) (s : DeckStore) (did : string)
         (ids : list string) (deck0 : DeckEntry.t),
    canRead s = true -> canWrite s = true ->
    DeckStorage_getById s did = Some deck0 ->
    let r := DeckStorage_addCards now1 now2 s did ids in
    fst r = true
    /\ exists deck1,
         DeckStorage_getById (snd r) did = Some deck1
         /\ NoDup (DeckEntry.cardIds deck1)
         /\ (forall c, In c (DeckEntry.cardIds deck1)
                       <-> In c (DeckEntry.cardIds deck0) \/ In c ids)
         /\ DeckEntry.name deck1 = DeckEntry.name deck0
         /\ DeckEntry.description deck1 = DeckEntry.description deck0
         /\ DeckEntry.createdAt deck1 = DeckEntry.createdAt deck0
         /\ DeckEntry.updatedAt deck1 = now2.
Proof.
  intros now1 now2 s did ids deck0 Hr Hw Hget r. subst r.
  pose proof (DeckStorage_getById_id _ _ _ Hget) as Hid.
  unfold DeckStorage_addCards. rewrite Hget. cbv zeta.
  set (deck1 := DeckEntry.mk _ _ _ _ _ _).
  destruct (DeckStorage_save_getById now2 s deck1 Hr Hw) as [Hok Hsame].
  split; [exact Hok|].
  change (DeckEntry.id deck1) with (DeckEntry.id deck0) in Hsame.
  rewrite Hid in Hsame.
  change (Crud_getById DeckEntry.id s did) with (DeckStorage_getById s did)
    in Hsame.
  rewrite Hget in Hsame.
  exists (DeckEntry.touch now2 deck1). split; [exact Hsame|].
  cbn [DeckEntry.touch deck1 DeckEntry.cardIds DeckEntry.name
       DeckEntry.description DeckEntry.createdAt DeckEntry.updatedAt].
  unfold Array_from. split; [apply Set_new_NoDup|]. split.
  - intro c. rewrite Set_new_In. apply in_app_iff.
  - repeat split.
Qed.

Lemma addCards_unions_card_ids_witness :
  fst (DeckStorage_addCards (day 5) (day 5) deckStore0 "d1" ["c2"; "c3"; "c3"])
  = true
  /\ DeckStorage_getById
       (snd (DeckStorage_addCards (day 5) (day 5) deckStore0 "d1"
               ["c2"; "c3"; "c3"])) "d1"
     = Some (DeckEntry.mk "d1" "basic" None ["c1"; "c2"; "c3"] (day 0) (day 5)).
Proof.
  destruct (addCards_unions_card_ids (day 5) (day 5) deckStore0 "d1"
              ["c2"; "c3"; "c3"] deckEntryD eq_refl eq_refl eq_refl)
    as [Hok _].
  split; [exact Hok | reflexivity].
Defined.

(** X24.  [DeckStorage.removeCards] on a deck of the store, with a store
    that can be read and written: it answers [true]; afterwards the deck
    lists its former cards without the removed ones, in their former
    order; its other fields are kept and [updatedAt] is the clock of the
    inner [save]. *)
Theorem removeCards_filters_card_ids :
  forall (now1 now2 : Q) (s : DeckStore) (did : string)
         (ids : list string) (deck0 : DeckEntry.t),
    canRead s = true -> canWrite s = true ->
    DeckStorage_getById s did = Some deck0 ->
    let r := DeckStorage_removeCards now1 now2 s did ids in
    fst r = true
    /\ DeckStorage_getById (snd r) did
       = Some (DeckEntry.mk (DeckEntry.id deck0) (DeckEntry.name deck0)
                 (DeckEntry.description deck0)
                 (filter (fun c => negb (Array_includes ids c))
                         (DeckEntry.cardIds deck0))
                 (DeckEntry.createdAt deck0) now2).
Proof.
  intros now1 now2 s did ids deck0 Hr Hw Hget r. subst r.
  pose proof (DeckStorage_getById_id _ _ _ Hget) as Hid.
  unfold DeckStorage_removeCards. rewrite Hget. cbv zeta.
  set (deck1 := DeckEntry.mk _ _ _ _ _ _).
  destruct (DeckStorage_save_getById now2 s deck1 Hr Hw) as [Hok Hsame].
  split; [exact Hok|].
  change (DeckEntry.id deck1) with (DeckEntry.id deck0) in Hsame.
  rewrite Hid in Hsame.
  change (Crud_getById DeckEntry.id s did) with (DeckStorage_getById s did)
    in Hsame.
  rewrite Hget in Hsame.
  rewrite Hsame.
  unfold deck1, DeckEntry.touch.
  cbn [DeckEntry.id DeckEntry.name DeckEntry.description DeckEntry.cardIds
       DeckEntry.createdAt].
  do 2 f_equal. apply filter_ext. intro c. now rewrite Set_has_includes.
Qed.

Lemma removeCards_filters_card_ids_witness :
  DeckStorage_getById
    (snd (DeckStorage_removeCards (day 5) (day 5) deckStore0 "d1" ["c1"]))
    "d1"
  = Some (DeckEntry.mk "d1" "basic" None ["c2"] (day 0) (day 5)).
Proof.
  apply (removeCards_filters_card_ids (day 5) (day 5) deckStore0 "d1"
           ["c1"] deckEntryD eq_refl eq_refl eq_refl).
Defined.

(** X25.  For a deck id the store does not have, [addCards] and
    [removeCards] answer [false] and write nothing. *)
Theorem card_edits_need_the_deck :
  forall (now1 now2 : Q) (s : DeckStore) (did : string) (ids : list string),
    DeckStorage_getById s did = None ->
    DeckStorage_addCards now1 now2 s did ids = (false, s)
    /\ DeckStorage_removeCards now1 now2 s did ids = (false, s).
Proof.
  intros now1 now2 s did ids H.
  unfold DeckStorage_addCards, DeckStorage_removeCards. now rewrite H.
Qed.

Lemma card_edits_need_the_deck_witness :
  DeckStorage_addCards (day 5) (day 5) deckStore0 "d9" ["c1"]
  = (false, deckStore0)
  /\ DeckStorage_removeCards (day 5) (day 5) deckStore0 "d9" ["c1"]
     = (false, deckStore0).
Proof.
  apply (card_edits_need_the_deck (day 5) (day 5) deckStore0 "d9" ["c1"]).
  reflexivity.
Defined.

(** *** Maps and bulkSave *)

Section MapFacts.

Context {V : Type}.

Lemma Map_has_In (m : JsMap V) (k : string) :
  Map_has m k = true <-> In k (map fst m).
Proof.
  unfold Map_has. rewrite existsb_exists, in_map_iff.
  split; intros [e [H1 H2]]; exists e.
  - split; [now apply String.eqb_eq | exact H1].
  - split; [exact H2 | now apply String.eqb_eq].
Qed.

Lemma Map_set_keys (m : JsMap V) (k : string) (v : V) :
  map fst (Map_set m k v)
  = if Map_has m k then map fst m else map fst m ++ [k].
Proof.
  induction m as [|e m IH]; [reflexivity|].
  cbn [Map_set]. unfold Map_has. cbn [existsb].
  destruct (String.eqb_spec (fst e) k) as [He | Hne]; cbn [orb map fst].
  - now rewrite He.
  - rewrite IH. unfold Map_has. destruct (existsb _ m); reflexivity.
Qed.

Lemma Map_set_keys_In (m : JsMap V) (k k' : string) (v : V) :
  In k' (map fst (Map_set m k v)) <-> In k' (map fst m) \/ k' = k.
Proof.
  rewrite Map_set_keys. destruct (Map_has m k) eqn:H.
  - apply Map_has_In in H. split; [now left|]. intros [H1 | ->]; assumption.
  - rewrite in_app_iff. cbn. intuition congruence.
Qed.

Lemma Map_set_keys_NoDup (m : JsMap V) (k : string) (v : V) :
  NoDup (map fst m) -> NoDup (map fst (Map_set m k v)).
Proof.
  intro H. rewrite Map_set_keys. destruct (Map_has m k) eqn:Hh; [exact H|].
  apply NoDup_snoc; [exact H|]. intro Hin. apply Map_has_In in Hin. congruence.
Qed.

Lemma Map_set_entries (P : string * V -> Prop) (m : JsMap V) (k : string) (v : V) :
  Forall P m -> P (k, v) -> Forall P (Map_set m k v).
Proof.
  intros Hm Hv. induction m as [|e m IH]; cbn [Map_set].
  - now constructor.
  - inversion Hm as [|? ? He Hm']; subst.
    destruct (String.eqb (fst e) k); constructor; auto.
Qed.

End MapFacts.

Section BulkSave.

Context {A : Type}.
Variable getId : A -> string.
Variable touch : Q -> A -> A.
Variable create : Q -> A -> A.
Hypothesis touch_id : forall t x, getId (touch t x) = getId x.
Hypothesis create_id : forall t x, getId (create t x) = getId x.

(** A map keyed by the ids of its values, without a repeated key. *)
Local Abbreviation keyed :=
  (fun m : JsMap A =>
     NoDup (map fst m) /\ Forall (fun e => getId (snd e) = fst e) m).

Lemma keyed_values (m : JsMap A) :
  Forall (fun e => getId (snd e) = fst e) m ->
  map getId (Map_values m) = map fst m.
Proof.
  intro H. unfold Map_values. rewrite map_map.
  induction H as [|e m He Hm IH]; [reflexivity|].
  cbn [map]. now rewrite He, IH.
Qed.

Lemma fold_existing (xs : list A) (m : JsMap A) :
  keyed m ->
  keyed (fold_left (fun m x => Map_set m (getId x) x) xs m)
  /\ forall k,
       In k (map fst (fold_left (fun m x => Map_set m (getId x) x) xs m))
       <-> In k (map fst m) \/ In k (map getId xs).
Proof.
  revert m. induction xs as [|x xs IH]; intros m [Hnd Hk]; cbn [fold_left].
  - split; [now split|]. intro k. cbn. tauto.
  - destruct (IH (Map_set m (getId x) x)) as [Hkeyed Hin].
    { split; [now apply Map_set_keys_NoDup|].
      now apply Map_set_entries. }
    split; [exact Hkeyed|]. intro k. rewrite Hin, Map_set_keys_In.
    cbn [map In]. intuition congruence.
Qed.

Lemma fold_incoming (now0 : Q) (xs : list A) (m : JsMap A) :
  keyed m ->
  let step := fun m x =>
    if Map_has m (getId x)
    then Map_set m (getId x) (touch now0 x)
    else Map_set m (getId x) (create now0 x) in
  keyed (fold_left step xs m)
  /\ forall k,
       In k (map fst (fold_left step xs m))
       <-> In k (map fst m) \/ In k (map getId xs).
Proof.
  cbv zeta. revert m.
  induction xs as [|x xs IH]; intros m [Hnd Hk]; cbn [fold_left].
  - split; [now split|]. intro k. cbn. tauto.
  - destruct (Map_has m (getId x)) eqn:Hh.
    + destruct (IH (Map_set m (getId x) (touch now0 x))) as [Hkeyed Hin].
      { split; [now apply Map_set_keys_NoDup|].
        apply Map_set_entries; [exact Hk | apply touch_id]. }
      split; [exact Hkeyed|]. intro k. rewrite Hin, Map_set_keys_In.
      cbn [map In]. intuition congruence.
    + destruct (IH (Map_set m (getId x) (create now0 x))) as [Hkeyed Hin].
      { split; [now apply Map_set_keys_NoDup|].
        apply Map_set_entries; [exact Hk | apply create_id]. }
      split; [exact Hkeyed|]. intro k. rewrite Hin, Map_set_keys_In.
      cbn [map In]. intuition congruence.
Qed.

Lemma Crud_bulkSave_ids (now0 : Q) (s : KeyStore A) (xs : list A) :
  canRead s = true -> canWrite s = true ->
  let s' := snd (Crud_bulkSave getId touch create now0 s xs) in
  fst (Crud_bulkSave getId touch create now0 s xs) = true
  /\ NoDup (map getId (Crud_getAll s'))
  /\ forall k, In k (map getId (Crud_getAll s'))
               <-> In k (map getId (Crud_getAll s)) \/ In k (map getId xs).
Proof.
  intros Hr Hw. cbv zeta.
  unfold Crud_bulkSave, KeyStore_setItem. cbv zeta. rewrite Hw.
  cbn [fst snd]. split; [reflexivity|].
  rewrite Hr.
  assert (Hget : forall (v : list A) (w : bool),
                   Crud_getAll (mkKeyStore (Some v) true w) = v)
    by reflexivity.
  rewrite !Hget.
  destruct (fold_existing (Crud_getAll s) []) as [Hk1 Hin1].
  { split; constructor. }
  destruct (fold_incoming now0 xs _ Hk1) as [[Hnd Hk2] Hin2].
  rewrite (keyed_values _ Hk2). split; [exact Hnd|].
  intro k. rewrite Hin2, Hin1. cbn. tauto.
Qed.

End BulkSave.

(** X26.  [CardStorage.bulkSave] on a store that can be read and written:
    it answers [true]; afterwards the store has exactly the ids it had
    before and the ids of the given cards, and no two stored cards share an
    id, even if the store or the argument repeated one. *)
Theorem bulkSave_merges_by_id :
  forall (now0 : Q) (s : CardStore) (xs : list CardEntry.t),
    canRead s = true -> canWrite s = true ->
    let s' := snd (CardStorage_bulkSave now0 s xs) in
    fst (CardStorage_bulkSave now0 s xs) = true
    /\ NoDup (map CardEntry.id (CardStorage_getAll s'))
    /\ forall k, In k (map CardEntry.id (CardStorage_getAll s'))
                 <-> In k (map CardEntry.id (CardStorage_getAll s))
                     \/ In k (map CardEntry.id xs).
Proof.
  intros now0 s xs Hr Hw.
  apply (Crud_bulkSave_ids CardEntry.id CardEntry.touch CardEntry.create);
    trivial.
Qed.

Lemma bulkSave_merges_by_id_witness :
  let xs := [CardEntry.mk "c2" "boat" 0 0; CardEntry.mk "c4" "dog" 0 0;
             CardEntry.mk "c4" "duck" 0 0] in
  fst (CardStorage_bulkSave (day 5) cardStore0 xs) = true
  /\ map CardEntry.id
       (CardStorage_getAll (snd (CardStorage_bulkSave (day 5) cardStore0 xs)))
     = ["c1"; "c2"; "c3"; "c4"].
Proof.
  cbv zeta.
  destruct (bulkSave_merges_by_id (day 5) cardStore0
              [CardEntry.mk "c2" "boat" 0 0; CardEntry.mk "c4" "dog" 0 0;
               CardEntry.mk "c4" "duck" 0 0] eq_refl eq_refl)
    as [Hok _].
  split; [exact Hok | reflexivity].
Defined.

(** ** SettingsStorage *)

Lemma spread_allSettings (base u : UserSettings) :
  spreadSettings base (allSettings u) = u.
Proof. destruct u. reflexivity. Qed.

(** X27.  On a settings store that can be read and written, [save] answers
    [true] and [get] then returns the settings [get] returned before with
    the saved properties replaced; and after [reset], [get] returns the
    default settings. *)
Theorem settings_save_then_get :
  forall (s : SettingsStore) (p : PartialSettings.t),
    settingsReadable s = true -> settingsWritable s = true ->
    fst (SettingsStorage_save s p) = true
    /\ SettingsStorage_get (snd (SettingsStorage_save s p))
       = spreadSettings (SettingsStorage_get s) p
    /\ fst (SettingsStorage_reset s) = true
    /\ SettingsStorage_get (snd (SettingsStorage_reset s))
       = DEFAULT_USER_SETTINGS.
Proof.
  intros s p Hr Hw.
  unfold SettingsStorage_save, SettingsStorage_reset, SettingsStore_setItem.
  rewrite Hw. cbn [fst snd]. rewrite Hr.
  assert (Hget : forall (v : PartialSettings.t) (w : bool),
                   SettingsStorage_get (mkSettingsStore (Some v) true w)
                   = spreadSettings DEFAULT_USER_SETTINGS v)
    by reflexivity.
  rewrite !Hget, !spread_allSettings. repeat split.
Qed.

Lemma settings_save_then_get_witness :
  let p := PartialSettings.mk (Some 5%Z) None None in
  SettingsStorage_get (snd (SettingsStorage_save settingsStore0 p))
  = {| newCardsPerDay := 5;
       reviewCardsPerDay := 100;
       reviewIntervals := reviewIntervals DEFAULT_USER_SETTINGS |}.
Proof.
  cbv zeta.
  destruct (settings_save_then_get settingsStore0
              (PartialSettings.mk (Some 5%Z) None None) eq_refl eq_refl)
    as [_ [Hget _]].
  rewrite Hget. reflexivity.
Defined.

(** ** A whole session *)

Lemma statsTotal_updateStats (s : SessionStats.t) (rt : ResponseType) :
  statsTotal (updateStats s rt) = S (statsTotal s).
Proof. destruct s, rt; unfold statsTotal; cbn; lia. Qed.

Lemma isSessionComplete_spec (p : Progress) :
  isSessionComplete p = true
  <-> completed p = total p /\ (0 < total p)%nat.
Proof.
  unfold isSessionComplete.
  now rewrite andb_true_iff, Nat.eqb_eq, Nat.ltb_lt.
Qed.

Lemma handleResponse_invariant :
  forall env st store rt rtime,
    sessionInvariant st ->
    (completed (progress st) <= total (progress st))%nat ->
    let st' := fst (handleResponse env st store rt rtime) in
    sessionInvariant st'
    /\ total (progress st') = total (progress st)
    /\ completed (progress st')
       = Nat.min (S (completed (progress st))) (total (progress st)).
Proof.
  intros env st store rt rtime [Hidx [Htot [Hcur [Hstats [Hd Hs]]]]] Hle.
  cbv zeta. unfold handleResponse.
  destruct (currentCard st) as [card|] eqn:Hc.
  - destruct (deck st) as [d|] eqn:Hdk; [|now elim Hd].
    destruct (settings st) as [s|] eqn:Hst; [|now elim Hs].
    destruct (LogStorage_save store _) as [ok store'].
    cbn [fst].
    assert (Hlt : (currentCardIndex st < List.length (studyCards st))%nat).
    { apply nth_error_Some. rewrite <- Hcur. discriminate. }
    unfold sessionInvariant.
    cbn [currentCardIndex progress completed total studyCards currentCard
         sessionStats deck settings].
    rewrite statsTotal_updateStats.
    repeat split; try congruence; try lia.
    destruct (Nat.ltb_spec (S (currentCardIndex st))
                (List.length (studyCards st))) as [H | H]; [reflexivity|].
    symmetry. now apply nth_error_None.
  - cbn [fst].
    assert (Hge : (List.length (studyCards st) <= currentCardIndex st)%nat).
    { apply nth_error_None. now rewrite <- Hcur. }
    repeat split; try assumption; try congruence. lia.
Qed.

Lemma handleResponses_invariant :
  forall answers st store,
    sessionInvariant st ->
    (completed (progress st) <= total (progress st))%nat ->
    let st' := fst (handleResponses answers st store) in
    sessionInvariant st'
    /\ total (progress st') = total (progress st)
    /\ completed (progress st')
       = Nat.min (completed (progress st) + List.length answers)
           (total (progress st)).
Proof.
  induction answers as [|a answers IH]; intros st store Hinv Hle; cbv zeta.
  - cbn [handleResponses fst List.length].
    split; [exact Hinv|]. split; [reflexivity | lia].
  - cbn [handleResponses List.length].
    destruct (handleResponse_invariant (answerEnv a) st store (answerType a)
                (answerTime a) Hinv Hle) as [Hinv' [Htot' Hc']].
    destruct (handleResponse (answerEnv a) st store (answerType a)
                (answerTime a)) as [st1 store1].
    cbn [fst] in *.
    destruct (IH st1 store1 Hinv') as [Hinv2 [Htot2 Hc2]]; [lia|].
    split; [exact Hinv2|]. split; [congruence|]. lia.
Qed.

(** X28.  A session runs to its end and stops there.  From a fresh session
    (nothing completed yet, the current card being the first of the queue),
    after any sequence of answers the number of completed cards is the
    number of answers, capped at the length of the queue, and equals the
    sum of the five statistics counters; the session is complete exactly
    when the queue is non-empty and at least as many answers were given as
    it has cards; there is a current card exactly while fewer answers were
    given. *)
Theorem session_runs_to_completion :
  forall (answers : list Answer) (st : DeckState) (store : AsyncStorage),
    sessionInvariant st ->
    completed (progress st) = 0%nat ->
    let st' := fst (handleResponses answers st store) in
    let n := List.length (studyCards st) in
    completed (progress st') = Nat.min (List.length answers) n
    /\ statsTotal (sessionStats st') = completed (progress st')
    /\ (isSessionComplete (progress st') = true
        <-> (0 < n /\ n <= List.length answers)%nat)
    /\ (currentCard st' <> None <-> (List.length answers < n)%nat).
Proof.
  intros answers st store Hinv H0. cbv zeta.
  destruct (handleResponses_invariant answers st store Hinv)
    as [Hinv' [Htot' Hc']]; [lia|].
  destruct Hinv as [_ [Htot _]].
  destruct Hinv' as [Hidx' [Hlen' [Hcur' [Hstats' _]]]].
  rewrite H0, Htot in Hc'. cbn [Nat.add] in Hc'.
  assert (Hsame : studyCards (fst (handleResponses answers st store))
                  = studyCards st).
  { clear. revert st store.
    induction answers as [|a answers IH]; intros st store; [reflexivity|].
    cbn [handleResponses].
    destruct (handleResponse (answerEnv a) st store (answerType a)
                (answerTime a)) as [st1 store1] eqn:Hh.
    rewrite IH.
    unfold handleResponse in Hh.
    destruct (currentCard st), (deck st), (settings st);
      try (injection Hh as <- <-; reflexivity).
    destruct (LogStorage_save store _). injection Hh as <- <-. reflexivity. }
  split; [exact Hc'|]. split; [exact Hstats'|]. split.
  - rewrite isSessionComplete_spec, Htot', Htot, Hc'. lia.
  - rewrite Hcur', Hidx', Hc', Hsame.
    split.
    + intro H. apply nth_error_Some in H. lia.
    + intro H. apply nth_error_Some. lia.
Qed.

Lemma session_runs_to_completion_witness :
  let st' :=
    fst (handleResponses [answerAt (day 5) "l3" CORRECT;
                          answerAt (day 5) "l4" WRONG;
                          answerAt (day 5) "l5" EASY]
           session0 workingStore) in
  completed (progress st') = 2%nat
  /\ statsTotal (sessionStats st') = 2%nat
  /\ isSessionComplete (progress st') = true
  /\ currentCard st' = None.
Proof.
  cbv zeta.
  destruct (session_runs_to_completion
              [answerAt (day 5) "l3" CORRECT; answerAt (day 5) "l4" WRONG;
               answerAt (day 5) "l5" EASY] session0 workingStore)
    as [Hc [Hs [Hdone Hcur]]].
  - repeat split; discriminate.
  - reflexivity.
  - split; [exact Hc|]. split; [rewrite Hs; exact Hc|].
    split; [apply Hdone; cbn; lia | reflexivity].
Defined.

(** X29.  The logs of the hook follow the store: when the hook's logs are
    the stored logs and the store can be read and written, they still are
    after any sequence of answers, and each answer adds at most one log. *)
Theorem hook_logs_follow_store :
  forall (answers : list Answer) (st : DeckState) (store : AsyncStorage),
    readable store = true -> writable store = true ->
    logs st = LogStorage_getAll store ->
    let r := handleResponses answers st store in
    logs (fst r) = LogStorage_getAll (snd r)
    /\ readable (snd r) = true /\ writable (snd r) = true
    /\ (List.length (logs (fst r))
        <= List.length (logs st) + List.length answers)%nat.
Proof.
  induction answers as [|a answers IH]; intros st store Hr Hw Hsync; cbv zeta.
  - cbn [handleResponses fst snd List.length]. repeat split; try assumption.
    lia.
  - cbn [handleResponses List.length].
    destruct (handleResponse (answerEnv a) st store (answerType a)
                (answerTime a)) as [st1 store1] eqn:Hh.
    assert (H1 : logs st1 = LogStorage_getAll store1
                 /\ readable store1 = true /\ writable store1 = true
                 /\ (List.length (logs st1) <= S (List.length (logs st)))%nat).
    { unfold handleResponse in Hh.
      destruct (currentCard st) as [card|];
        [|injection Hh as <- <-; repeat split; auto].
      destruct (deck st) as [d|];
        [|injection Hh as <- <-; repeat split; auto].
      destruct (settings st) as [s|];
        [|injection Hh as <- <-; repeat split; auto].
      set (log := newStudyLog _ _ _ _ _ _ _) in Hh.
      destruct (LogStorage_save_appends store log Hr Hw) as [_ Happ].
      unfold LogStorage_save, AsyncStorage_setItem in Hh, Happ.
      rewrite Hw in Hh, Happ. cbn [snd] in Happ.
      injection Hh as <- <-. cbn [logs readable writable].
      rewrite Happ, Hsync. repeat split; try assumption.
      rewrite length_app. cbn. lia. }
    destruct H1 as [Hsync1 [Hr1 [Hw1 Hlen1]]].
    destruct (IH st1 store1 Hr1 Hw1 Hsync1) as [Hs2 [Hr2 [Hw2 Hlen2]]].
    repeat split; try assumption. lia.
Qed.

Lemma hook_logs_follow_store_witness :
  let r := handleResponses [answerAt (day 5) "l3" CORRECT;
                            answerAt (day 5) "l4" WRONG]
             session0 workingStore in
  logs (fst r) = LogStorage_getAll (snd r)
  /\ List.length (LogStorage_getAll (snd r)) = 4%nat.
Proof.
  cbv zeta.
  destruct (hook_logs_follow_store
              [answerAt (day 5) "l3" CORRECT; answerAt (day 5) "l4" WRONG]
              session0 workingStore eq_refl eq_refl eq_refl)
    as [Hsync _].
  split; [exact Hsync | reflexivity].
Defined.

(** X30.  How a session starts.  [resetSession], with the settings and the
    deck loaded, and [loadDeckAndCards] at the first render, for a deck the
    store has, both leave a fresh session: nothing completed, the
    statistics at zero, the total equal to the length of the queue, the
    current card the first of the queue (none if it is empty), and loading
    over.  For a deck the store does not have, [loadDeckAndCards] leaves the
    hook without deck, without queue and without current card, not loading
    and not complete. *)
Theorem session_start :
  (forall (d : Today) (shuffle : list WordCard.t -> list WordCard.t)
          (st : DeckState),
      settings st <> None -> deck st <> None ->
      let st' := resetSession d shuffle st in
      sessionInvariant st'
      /\ completed (progress st') = 0%nat
      /\ isLoading st' = false
      /\ logs st' = logs st)
  /\ (forall (d : Today) (shuffle : list WordCard.t -> list WordCard.t)
             (did : string) (ss : SettingsStore) (ds : DeckStore)
             (cs : CardStore) (ls : AsyncStorage),
        let st' := loadDeckAndCards d shuffle did ss ds cs ls initialState in
        match DeckStorage_getById ds did with
        | Some entry =>
            sessionInvariant st'
            /\ completed (progress st') = 0%nat
            /\ isLoading st' = false
            /\ deck st' = Some (deckOfEntry entry)
            /\ logs st' = LogStorage_getAll ls
        | None =>
            deck st' = None /\ studyCards st' = [] /\ currentCard st' = None
            /\ isLoading st' = false
            /\ isSessionComplete (progress st') = false
        end).
Proof.
  split.
  - intros d shuffle st Hs Hd. cbv zeta. unfold resetSession.
    destruct (settings st) as [s|] eqn:Hst; [|now elim Hs].
    destruct (deck st) as [dk|] eqn:Hdk; [|now elim Hd].
    unfold sessionInvariant.
    cbn [currentCardIndex progress completed total studyCards currentCard
         sessionStats deck settings isLoading logs].
    repeat split; discriminate.
  - intros d shuffle did ss ds cs ls. cbv zeta. unfold loadDeckAndCards.
    destruct (DeckStorage_getById ds did) as [entry|].
    + cbv zeta. unfold sessionInvariant.
      cbn [currentCardIndex progress completed total studyCards currentCard
           sessionStats deck settings isLoading logs initialState].
      repeat split; try discriminate.
      destruct (Nat.ltb_spec 0 (List.length (shuffle
        (filter (fun card =>
           Array_includes
             (reviewCardIds
                (calculateTodayCards d (LogStorage_getAll ls)
                   (newCardsPerDay (SettingsStorage_get ss))
                   (reviewCardsPerDay (SettingsStorage_get ss))
                   (Deck.cardIds (deckOfEntry entry)))
              ++ newCardIds
                   (calculateTodayCards d (LogStorage_getAll ls)
                      (newCardsPerDay (SettingsStorage_get ss))
                      (reviewCardsPerDay (SettingsStorage_get ss))
                      (Deck.cardIds (deckOfEntry entry))))
             (WordCard.id card))
           (map cardOfEntry (CardStorage_getAll cs)))))) as [H | H];
        [reflexivity|].
      symmetry. apply nth_error_None. exact H.
    + cbn [deck studyCards currentCard isLoading progress initialState].
      repeat split.
Qed.

Lemma session_start_witness :
  let st' := loadDeckAndCards day4 noShuffle "d1" settingsStore0 deckStore0
               cardStore0 workingStore initialState in
  sessionInvariant st'
  /\ studyCards st' = [cardA; cardB]
  /\ currentCard st' = Some cardA
  /\ sessionInvariant (resetSession day4 noShuffle st').
Proof.
  cbv zeta.
  destruct session_start as [Hreset Hload].
  pose proof (Hload day4 noShuffle "d1" settingsStore0 deckStore0 cardStore0
                workingStore) as H.
  cbv zeta in H.
  change (DeckStorage_getById deckStore0 "d1") with (Some deckEntryD) in H.
  destruct H as [Hinv _].
  split; [exact Hinv|]. split; [reflexivity|]. split; [reflexivity|].
  apply Hreset; discriminate.
Defined.
